(** * useConfigHandler: the admin console's server-configuration composable

    A shallow embedding of
    [packages/hoppscotch-sh-admin/src/composables/useConfigHandler.ts]:
    the view-model builder run on mount, the two reverse transforms
    ([updatedInfraConfigs], [updatedAllowedAuthProviders]), the validator
    [AreAnyConfigFieldsEmpty] and the mutation dispatcher [executeMutation]
    with its four call sites. *)

From Stdlib Require Import String Ascii List NArith Bool Lia Permutation.
From ExtLib Require Import Structures.Monad Structures.MonadState Data.Monads.StateMonad.
Import ListNotations.
Import MonadNotation.
Local Open Scope monad_scope.
Local Open Scope N_scope.

(* ===================================================================== *)
(** ** JavaScript strings *)
(* ===================================================================== *)

(** A JavaScript string is a finite sequence of UTF-16 code units. *)
Definition code_unit := N.
Definition jsstring := list code_unit.

(** An ASCII literal of the source, as code units. *)
Definition js (s : string) : jsstring := map N_of_ascii (list_ascii_of_string s).

(** The empty string, ['']. *)
Definition js_empty : jsstring := [].

(** [a === b] on strings. *)
Fixpoint streq (a b : jsstring) : bool :=
  match a, b with
  | [], [] => true
  | x :: a', y :: b' => (x =? y) && streq a' b'
  | _, _ => false
  end.

(** [a !== b] on strings. *)
Definition strneq (a b : jsstring) : bool := negb (streq a b).

(** The code units that [String.prototype.trim] strips: ECMAScript's
    WhiteSpace (TAB, VT, FF, SP, NBSP, ZWNBSP and the category Zs) and
    LineTerminator (LF, CR, LS, PS). *)
Definition white_space : list code_unit :=
  [ 9; 10; 11; 12; 13; 32; 160; 5760;
    8192; 8193; 8194; 8195; 8196; 8197; 8198; 8199; 8200; 8201; 8202;
    8232; 8233; 8239; 8287; 12288; 65279 ].

Definition isWhiteSpace (c : code_unit) : bool := existsb (N.eqb c) white_space.

Fixpoint trimStart (s : jsstring) : jsstring :=
  match s with
  | [] => []
  | c :: r => if isWhiteSpace c then trimStart r else s
  end.

Definition trimEnd (s : jsstring) : jsstring := rev (trimStart (rev s)).

(** [s.trim()] *)
Definition trim (s : jsstring) : jsstring := trimEnd (trimStart s).

(* ===================================================================== *)
(** ** Types *)
(* ===================================================================== *)

(** [type SsoAuthProviders = 'google' | 'microsoft' | 'github' | 'oidc'] *)
Inductive SsoAuthProviders := sso_google | sso_microsoft | sso_github | sso_oidc.

(** A section of the view model: [{ name; enabled; fields }].  The three
    kinds of section differ in the type of [name] and in the shape of
    [fields]. *)
Record SectionOf (Nm F : Type) := mkSection {
  name : Nm;
  enabled : bool;
  fields : F
}.
Arguments mkSection {Nm F}.
Arguments name {Nm F}.
Arguments enabled {Nm F}.
Arguments fields {Nm F}.

(** The [fields] of [providers.google] and of [providers.github]. *)
Module OAuth.
Record Fields := mk {
  client_id : jsstring;
  client_secret : jsstring;
  callback_url : jsstring;
  scope : jsstring
}.
End OAuth.

(** The [fields] of [providers.microsoft]. *)
Module Microsoft.
Record Fields := mk {
  client_id : jsstring;
  client_secret : jsstring;
  callback_url : jsstring;
  scope : jsstring;
  tenant : jsstring
}.
End Microsoft.

(** The [fields] of [providers.oidc]. *)
Module Oidc.
Record Fields := mk {
  client_id : jsstring;
  client_secret : jsstring;
  callback_url : jsstring;
  scope : jsstring;
  issuer : jsstring;
  auth_url : jsstring;
  token_url : jsstring;
  userinfo_url : jsstring
}.
End Oidc.

(** The [fields] of [mailConfigs]. *)
Module Mail.
Record Fields := mk {
  mailer_smtp_url : jsstring;
  mailer_from_address : jsstring
}.
End Mail.

Record Providers := mkProviders {
  google : SectionOf SsoAuthProviders OAuth.Fields;
  github : SectionOf SsoAuthProviders OAuth.Fields;
  microsoft : SectionOf SsoAuthProviders Microsoft.Fields;
  oidc : SectionOf SsoAuthProviders Oidc.Fields
}.

(** [dataSharingConfigs: { name: string; enabled: boolean }] *)
Record DataSharing := mkDataSharing {
  ds_name : jsstring;
  ds_enabled : bool
}.

Record Config := mkConfig {
  providers : Providers;
  mailConfigs : SectionOf jsstring Mail.Fields;
  dataSharingConfigs : DataSharing
}.

(** [type UpdatedConfigs = { name: string; value: string }].  The entries
    of the infra-config query have the same two fields. *)
Record UpdatedConfigs := mkEntry {
  e_name : jsstring;
  value : jsstring
}.

Definition InfraConfig := UpdatedConfigs.

(* ===================================================================== *)
(** ** The view-model builder (the body of [onMounted]) *)
(* ===================================================================== *)

(** [infraConfigs.value.find((x) => x.name === name)?.value ?? ''] *)
Definition getFieldValue (infraConfigs : list InfraConfig) (name : jsstring) : jsstring :=
  match find (fun x => streq (e_name x) name) infraConfigs with
  | Some x => value x
  | None => js_empty
  end.

(** [allowedAuthProviders.value.includes(p)] *)
Definition includes (l : list jsstring) (p : jsstring) : bool :=
  existsb (fun x => streq x p) l.

(** The object assigned to [currentConfigs.value]. *)
Definition buildConfig (infraConfigs : list InfraConfig)
    (allowedAuthProviders : list jsstring) : Config :=
  let getFieldValue := getFieldValue infraConfigs in
  {| providers := {|
       google := {|
         name := sso_google;
         enabled := includes allowedAuthProviders (js "GOOGLE");
         fields := {|
           OAuth.client_id := getFieldValue (js "GOOGLE_CLIENT_ID");
           OAuth.client_secret := getFieldValue (js "GOOGLE_CLIENT_SECRET");
           OAuth.callback_url := getFieldValue (js "GOOGLE_CALLBACK_URL");
           OAuth.scope := getFieldValue (js "GOOGLE_SCOPE") |} |};
       github := {|
         name := sso_github;
         enabled := includes allowedAuthProviders (js "GITHUB");
         fields := {|
           OAuth.client_id := getFieldValue (js "GITHUB_CLIENT_ID");
           OAuth.client_secret := getFieldValue (js "GITHUB_CLIENT_SECRET");
           OAuth.callback_url := getFieldValue (js "GITHUB_CALLBACK_URL");
           OAuth.scope := getFieldValue (js "GITHUB_SCOPE") |} |};
       microsoft := {|
         name := sso_microsoft;
         enabled := includes allowedAuthProviders (js "MICROSOFT");
         fields := {|
           Microsoft.client_id := getFieldValue (js "MICROSOFT_CLIENT_ID");
           Microsoft.client_secret := getFieldValue (js "MICROSOFT_CLIENT_SECRET");
           Microsoft.callback_url := getFieldValue (js "MICROSOFT_CALLBACK_URL");
           Microsoft.scope := getFieldValue (js "MICROSOFT_SCOPE");
           Microsoft.tenant := getFieldValue (js "MICROSOFT_TENANT") |} |};
       oidc := {|
         name := sso_oidc;
         enabled := includes allowedAuthProviders (js "OIDC");
         fields := {|
           Oidc.client_id := getFieldValue (js "OIDC_CLIENT_ID");
           Oidc.client_secret := getFieldValue (js "OIDC_CLIENT_SECRET");
           Oidc.callback_url := getFieldValue (js "OIDC_CALLBACK_URL");
           Oidc.scope := getFieldValue (js "OIDC_SCOPE");
           Oidc.issuer := getFieldValue (js "OIDC_ISSUER");
           Oidc.auth_url := getFieldValue (js "OIDC_AUTH_URL");
           Oidc.token_url := getFieldValue (js "OIDC_TOKEN_URL");
           Oidc.userinfo_url := getFieldValue (js "OIDC_USERINFO_URL") |} |} |};
     mailConfigs := {|
       name := js "email";
       enabled := includes allowedAuthProviders (js "EMAIL");
       fields := {|
         Mail.mailer_smtp_url := getFieldValue (js "MAILER_SMTP_URL");
         Mail.mailer_from_address := getFieldValue (js "MAILER_ADDRESS_FROM") |} |};
     dataSharingConfigs := {|
       ds_name := js "data_sharing";
       ds_enabled :=
         match find (fun x => streq (e_name x) (js "ALLOW_ANALYTICS_COLLECTION")
                              && streq (value x) (js "true")) infraConfigs with
         | Some _ => true
         | None => false
         end |} |}.

(* ===================================================================== *)
(** ** The reverse transforms *)
(* ===================================================================== *)

(** [updatedConfigs] is an optional argument of the composable: [None] is
    [undefined].  [o ?> f] is the optional chain of the source, [o?.f]. *)
Definition optChain {A B : Type} (o : option A) (f : A -> B) : option B :=
  match o with
  | Some a => Some (f a)
  | None => None
  end.
Notation "o ?> f" := (optChain o (fun updatedConfigs => f updatedConfigs))
  (at level 50, left associativity, only parsing).

(** The truth value of an optional boolean in a condition. *)
Definition truthy (o : option bool) : bool :=
  match o with
  | Some b => b
  | None => false
  end.

(** [o ?? d] *)
Definition nullish (o : option jsstring) (d : jsstring) : jsstring :=
  match o with
  | Some v => v
  | None => d
  end.
Infix "??" := nullish (at level 60).

(** [config.push(x1, ..., xn)] *)
Definition push (config : list UpdatedConfigs) (xs : list UpdatedConfigs) :=
  config ++ xs.

Definition updatedInfraConfigs (updatedConfigs : option Config) : list UpdatedConfigs :=
  let config := [ {| e_name := js_empty; value := js_empty |} ] in
  let config :=
    if truthy (updatedConfigs ?> (fun c => enabled (google (providers c)))) then
      push config
        [ {| e_name := js "GOOGLE_CLIENT_ID";
             value := updatedConfigs ?> (fun c => OAuth.client_id (fields (google (providers c)))) ?? js_empty |};
          {| e_name := js "GOOGLE_CLIENT_SECRET";
             value := updatedConfigs ?> (fun c => OAuth.client_secret (fields (google (providers c)))) ?? js_empty |};
          {| e_name := js "GOOGLE_CALLBACK_URL";
             value := updatedConfigs ?> (fun c => OAuth.callback_url (fields (google (providers c)))) ?? js_empty |};
          {| e_name := js "GOOGLE_SCOPE";
             value := updatedConfigs ?> (fun c => OAuth.scope (fields (google (providers c)))) ?? js_empty |} ]
    else
      filter (fun item =>
                strneq (e_name item) (js "GOOGLE_CLIENT_ID") &&
                strneq (e_name item) (js "GOOGLE_CLIENT_SECRET") &&
                strneq (e_name item) (js "GOOGLE_CALLBACK_URL") &&
                strneq (e_name item) (js "GOOGLE_SCOPE")) config in
  let config :=
    if truthy (updatedConfigs ?> (fun c => enabled (microsoft (providers c)))) then
      push config
        [ {| e_name := js "MICROSOFT_CLIENT_ID";
             value := updatedConfigs ?> (fun c => Microsoft.client_id (fields (microsoft (providers c)))) ?? js_empty |};
          {| e_name := js "MICROSOFT_CLIENT_SECRET";
             value := updatedConfigs ?> (fun c => Microsoft.client_secret (fields (microsoft (providers c)))) ?? js_empty |};
          {| e_name := js "MICROSOFT_CALLBACK_URL";
             value := updatedConfigs ?> (fun c => Microsoft.callback_url (fields (microsoft (providers c)))) ?? js_empty |};
          {| e_name := js "MICROSOFT_SCOPE";
             value := updatedConfigs ?> (fun c => Microsoft.scope (fields (microsoft (providers c)))) ?? js_empty |};
          {| e_name := js "MICROSOFT_TENANT";
             value := updatedConfigs ?> (fun c => Microsoft.tenant (fields (microsoft (providers c)))) ?? js_empty |} ]
    else
      filter (fun item =>
                strneq (e_name item) (js "MICROSOFT_CLIENT_ID") &&
                strneq (e_name item) (js "MICROSOFT_CLIENT_SECRET") &&
                strneq (e_name item) (js "MICROSOFT_CALLBACK_URL") &&
                strneq (e_name item) (js "MICROSOFT_SCOPE") &&
                strneq (e_name item) (js "MICROSOFT_TENANT")) config in
  let config :=
    if truthy (updatedConfigs ?> (fun c => enabled (github (providers c)))) then
      push config
        [ {| e_name := js "GITHUB_CLIENT_ID";
             value := updatedConfigs ?> (fun c => OAuth.client_id (fields (github (providers c)))) ?? js_empty |};
          {| e_name := js "GITHUB_CLIENT_SECRET";
             value := updatedConfigs ?> (fun c => OAuth.client_secret (fields (github (providers c)))) ?? js_empty |};
          {| e_name := js "GITHUB_CALLBACK_URL";
             value := updatedConfigs ?> (fun c => OAuth.callback_url (fields (github (providers c)))) ?? js_empty |};
          {| e_name := js "GITHUB_SCOPE";
             value := updatedConfigs ?> (fun c => OAuth.scope (fields (github (providers c)))) ?? js_empty |} ]
    else
      filter (fun item =>
                strneq (e_name item) (js "GITHUB_CLIENT_ID") &&
                strneq (e_name item) (js "GITHUB_CLIENT_SECRET") &&
                strneq (e_name item) (js "GITHUB_CALLBACK_URL") &&
                strneq (e_name item) (js "GITHUB_SCOPE")) config in
  let config :=
    if truthy (updatedConfigs ?> (fun c => enabled (oidc (providers c)))) then
      push config
        [ {| e_name := js "OIDC_CLIENT_ID";
             value := updatedConfigs ?> (fun c => Oidc.client_id (fields (oidc (providers c)))) ?? js_empty |};
          {| e_name := js "OIDC_CLIENT_SECRET";
             value := updatedConfigs ?> (fun c => Oidc.client_secret (fields (oidc (providers c)))) ?? js_empty |};
          {| e_name := js "OIDC_CALLBACK_URL";
             value := updatedConfigs ?> (fun c => Oidc.callback_url (fields (oidc (providers c)))) ?? js_empty |};
          {| e_name := js "OIDC_SCOPE";
             value := updatedConfigs ?> (fun c => Oidc.scope (fields (oidc (providers c)))) ?? js_empty |};
          {| e_name := js "OIDC_ISSUER";
             value := updatedConfigs ?> (fun c => Oidc.issuer (fields (oidc (providers c)))) ?? js_empty |};
          {| e_name := js "OIDC_AUTH_URL";
             value := updatedConfigs ?> (fun c => Oidc.auth_url (fields (oidc (providers c)))) ?? js_empty |};
          {| e_name := js "OIDC_TOKEN_URL";
             value := updatedConfigs ?> (fun c => Oidc.token_url (fields (oidc (providers c)))) ?? js_empty |};
          {| e_name := js "OIDC_USERINFO_URL";
             value := updatedConfigs ?> (fun c => Oidc.userinfo_url (fields (oidc (providers c)))) ?? js_empty |} ]
    else
      filter (fun item =>
                strneq (e_name item) (js "OIDC_CLIENT_ID") &&
                strneq (e_name item) (js "OIDC_CLIENT_SECRET") &&
                strneq (e_name item) (js "OIDC_CALLBACK_URL") &&
                strneq (e_name item) (js "OIDC_SCOPE") &&
                strneq (e_name item) (js "OIDC_ISSUER") &&
                strneq (e_name item) (js "OIDC_AUTH_URL") &&
                strneq (e_name item) (js "OIDC_TOKEN_URL") &&
                strneq (e_name item) (js "OIDC_USERINFO_URL")) config in
  let config :=
    if truthy (updatedConfigs ?> (fun c => enabled (mailConfigs c))) then
      push config
        [ {| e_name := js "MAILER_SMTP_URL";
             value := updatedConfigs ?> (fun c => Mail.mailer_smtp_url (fields (mailConfigs c))) ?? js_empty |};
          {| e_name := js "MAILER_ADDRESS_FROM";
             value := updatedConfigs ?> (fun c => Mail.mailer_from_address (fields (mailConfigs c))) ?? js_empty |} ]
    else
      filter (fun item =>
                strneq (e_name item) (js "MAILER_SMTP_URL") &&
                strneq (e_name item) (js "MAILER_ADDRESS_FROM")) config in
  let config := filter (fun item => strneq (e_name item) (js_empty)) config in
  config.

(** [{ provider, status }], an argument of the enable/disable mutation. *)
Record EnableAndDisableSsoArgs := mkDirective {
  provider : jsstring;
  status : jsstring
}.

(** [flag ? 'ENABLE' : 'DISABLE'] *)
Definition statusOf (flag : option bool) : jsstring :=
  if truthy flag then js "ENABLE" else js "DISABLE".

Definition updatedAllowedAuthProviders (updatedConfigs : option Config)
    : list EnableAndDisableSsoArgs :=
  [ {| provider := js "GOOGLE";
       status := statusOf (updatedConfigs ?> (fun c => enabled (google (providers c)))) |};
    {| provider := js "MICROSOFT";
       status := statusOf (updatedConfigs ?> (fun c => enabled (microsoft (providers c)))) |};
    {| provider := js "GITHUB";
       status := statusOf (updatedConfigs ?> (fun c => enabled (github (providers c)))) |};
    {| provider := js "EMAIL";
       status := statusOf (updatedConfigs ?> (fun c => enabled (mailConfigs c))) |} ].

(* ===================================================================== *)
(** ** The validator *)
(* ===================================================================== *)

(** [const isFieldEmpty = (field: string) => field.trim() === ''] *)
Definition isFieldEmpty (field : jsstring) : bool := streq (trim field) (js_empty).

(** [type ConfigSection = { enabled: boolean; fields: Record<string, string> }].
    The record of fields is kept as its properties in insertion order. *)
Record ConfigSection := mkConfigSection {
  cs_enabled : bool;
  cs_fields : list (jsstring * jsstring)
}.

(** [Object.values(o)] *)
Definition Object_values (o : list (jsstring * jsstring)) : list jsstring := map snd o.

(** The sections of a [Config] seen at the type [ConfigSection]. *)
Definition oauthSection (s : SectionOf SsoAuthProviders OAuth.Fields) : ConfigSection :=
  {| cs_enabled := enabled s;
     cs_fields := [ (js "client_id", OAuth.client_id (fields s));
                    (js "client_secret", OAuth.client_secret (fields s));
                    (js "callback_url", OAuth.callback_url (fields s));
                    (js "scope", OAuth.scope (fields s)) ] |}.

Definition microsoftSection (s : SectionOf SsoAuthProviders Microsoft.Fields) : ConfigSection :=
  {| cs_enabled := enabled s;
     cs_fields := [ (js "client_id", Microsoft.client_id (fields s));
                    (js "client_secret", Microsoft.client_secret (fields s));
                    (js "callback_url", Microsoft.callback_url (fields s));
                    (js "scope", Microsoft.scope (fields s));
                    (js "tenant", Microsoft.tenant (fields s)) ] |}.

Definition mailSection (s : SectionOf jsstring Mail.Fields) : ConfigSection :=
  {| cs_enabled := enabled s;
     cs_fields := [ (js "mailer_smtp_url", Mail.mailer_smtp_url (fields s));
                    (js "mailer_from_address", Mail.mailer_from_address (fields s)) ] |}.

Definition AreAnyConfigFieldsEmpty (config : Config) : bool :=
  let sections : list ConfigSection :=
    [ oauthSection (github (providers config));
      oauthSection (google (providers config));
      microsoftSection (microsoft (providers config));
      mailSection (mailConfigs config) ] in
  existsb (fun section =>
             cs_enabled section && existsb isFieldEmpty (Object_values (cs_fields section)))
          sections.

(* ===================================================================== *)
(** ** The mutation dispatcher and the state of one composable instance *)
(* ===================================================================== *)

(** The variables the four call sites pass to a mutation. *)
Inductive AnyVariables :=
| vars_undefined
| vars_providerInfo (providerInfo : list EnableAndDisableSsoArgs)
| vars_infraConfigs (infraConfigs : list UpdatedConfigs)
| vars_status (status : jsstring).

(** The part of the GraphQL client the composable touches.  A mutation
    handle runs against the world outside the composable (network and
    server) and resolves to a result whose [error] is set on failure: the
    client reports a failed mutation in the result, its promise does not
    reject. *)
Module Urql.
Record OperationResult (E : Type) := mkResult {
  error : option E
}.
Arguments error {E}.

Record UseMutationResponse (World E : Type) := mkHandle {
  executeMutation : AnyVariables -> World -> OperationResult E * World
}.
Arguments executeMutation {World E}.
End Urql.

Section Composable.

(** The world outside the composable, and the client's error type. *)
Variable World : Type.
Variable CombinedError : Type.

(** [const t = useI18n()]: the translation of a message key. *)
Variable t : jsstring -> jsstring.

(** The two reads issued on mount. *)
Variable fetchInfraConfigs : World -> list InfraConfig * World.
Variable fetchAllowedAuthProviders : World -> list jsstring * World.

(** The optional argument of [useConfigHandler]. *)
Variable updatedConfigs : option Config.

(** What one call of [useConfigHandler] owns: the two refs, the toasts
    shown so far (oldest first), and the world it talks to. *)
Record Handler := mkHandler {
  currentConfigs : option Config;
  workingConfigs : option Config;
  toasts : list jsstring;
  world : World
}.

Definition M := state Handler.

(** [const currentConfigs = ref<Config>(); const workingConfigs = ref<Config>();] *)
Definition setup (w : World) : Handler :=
  {| currentConfigs := None; workingConfigs := None; toasts := []; world := w |}.

(** An action of the outside world, run from inside the composable. *)
Definition external {A : Type} (f : World -> A * World) : M A :=
  s <- get ;;
  let (a, w) := f (world s) in
  put {| currentConfigs := currentConfigs s; workingConfigs := workingConfigs s;
         toasts := toasts s; world := w |} ;;
  ret a.

(** [toast.error(msg)] *)
Definition toast_error (msg : jsstring) : M unit :=
  s <- get ;;
  put {| currentConfigs := currentConfigs s; workingConfigs := workingConfigs s;
         toasts := toasts s ++ [msg]; world := world s |}.

(** [cloneDeep]: on immutable values a deep copy is the value itself. *)
Definition cloneDeep (c : Config) : Config := c.

Definition onMounted : M unit :=
  infraConfigs <- external fetchInfraConfigs ;;
  allowedAuthProviders <- external fetchAllowedAuthProviders ;;
  s <- get ;;
  let current := buildConfig infraConfigs allowedAuthProviders in
  put {| currentConfigs := Some current;
         workingConfigs := Some (cloneDeep current);
         toasts := toasts s; world := world s |}.

Definition executeMutation (mutation : Urql.UseMutationResponse World CombinedError)
    (variables : AnyVariables) (errorMessage : jsstring) : M bool :=
  result <- external (Urql.executeMutation mutation variables) ;;
  match Urql.error result with
  | Some _ => toast_error (t errorMessage) ;; ret false
  | None => ret true
  end.

Definition updateAuthProvider (updateProviderStatus : Urql.UseMutationResponse World CombinedError) :=
  executeMutation updateProviderStatus
    (vars_providerInfo (updatedAllowedAuthProviders updatedConfigs))
    (js "configs.auth_providers.update_failure").

Definition updateInfraConfigs (updateInfraConfigsMutation : Urql.UseMutationResponse World CombinedError) :=
  executeMutation updateInfraConfigsMutation
    (vars_infraConfigs (updatedInfraConfigs updatedConfigs))
    (js "configs.mail_configs.update_failure").

Definition resetInfraConfigs (resetInfraConfigsMutation : Urql.UseMutationResponse World CombinedError) :=
  executeMutation resetInfraConfigsMutation
    vars_undefined
    (js "configs.reset.failure").

Definition updateDataSharingConfigs (toggleDataSharingMutation : Urql.UseMutationResponse World CombinedError) :=
  executeMutation toggleDataSharingMutation
    (vars_status (statusOf (updatedConfigs ?> (fun c => ds_enabled (dataSharingConfigs c)))))
    (js "configs.data_sharing.update_failure").

End Composable.

Arguments currentConfigs {World}.
Arguments workingConfigs {World}.
Arguments toasts {World}.
Arguments world {World}.
Arguments setup {World}.
Arguments external {World A}.
Arguments toast_error {World}.
Arguments onMounted {World}.
Arguments executeMutation {World CombinedError}.
Arguments updateAuthProvider {World CombinedError}.
Arguments updateInfraConfigs {World CombinedError}.
Arguments resetInfraConfigs {World CombinedError}.
Arguments updateDataSharingConfigs {World CombinedError}.

(* ===================================================================== *)
(** ** Vocabulary of the statements *)
(* ===================================================================== *)

(** The five sections the infra-config transform walks, and the order in
    which its [if] statements come. *)
Inductive SectionId := s_google | s_microsoft | s_github | s_oidc | s_mail.

Definition declarationOrder : list SectionId :=
  [ s_google; s_microsoft; s_github; s_oidc; s_mail ].

(** The 23 string fields of a [Config]. *)
Inductive FieldId :=
| google_client_id | google_client_secret | google_callback_url | google_scope
| microsoft_client_id | microsoft_client_secret | microsoft_callback_url
| microsoft_scope | microsoft_tenant
| github_client_id | github_client_secret | github_callback_url | github_scope
| oidc_client_id | oidc_client_secret | oidc_callback_url | oidc_scope
| oidc_issuer | oidc_auth_url | oidc_token_url | oidc_userinfo_url
| mail_smtp_url | mail_from_address.

(** The fields of a section, in the order of its [push]. *)
Definition sectionFields (s : SectionId) : list FieldId :=
  match s with
  | s_google => [ google_client_id; google_client_secret; google_callback_url; google_scope ]
  | s_microsoft => [ microsoft_client_id; microsoft_client_secret; microsoft_callback_url;
                     microsoft_scope; microsoft_tenant ]
  | s_github => [ github_client_id; github_client_secret; github_callback_url; github_scope ]
  | s_oidc => [ oidc_client_id; oidc_client_secret; oidc_callback_url; oidc_scope;
                oidc_issuer; oidc_auth_url; oidc_token_url; oidc_userinfo_url ]
  | s_mail => [ mail_smtp_url; mail_from_address ]
  end.

Definition allFields : list FieldId := flat_map sectionFields declarationOrder.

(** The infra-config key under which a field travels. *)
Definition fieldKey (f : FieldId) : jsstring :=
  match f with
  | google_client_id => js "GOOGLE_CLIENT_ID"
  | google_client_secret => js "GOOGLE_CLIENT_SECRET"
  | google_callback_url => js "GOOGLE_CALLBACK_URL"
  | google_scope => js "GOOGLE_SCOPE"
  | microsoft_client_id => js "MICROSOFT_CLIENT_ID"
  | microsoft_client_secret => js "MICROSOFT_CLIENT_SECRET"
  | microsoft_callback_url => js "MICROSOFT_CALLBACK_URL"
  | microsoft_scope => js "MICROSOFT_SCOPE"
  | microsoft_tenant => js "MICROSOFT_TENANT"
  | github_client_id => js "GITHUB_CLIENT_ID"
  | github_client_secret => js "GITHUB_CLIENT_SECRET"
  | github_callback_url => js "GITHUB_CALLBACK_URL"
  | github_scope => js "GITHUB_SCOPE"
  | oidc_client_id => js "OIDC_CLIENT_ID"
  | oidc_client_secret => js "OIDC_CLIENT_SECRET"
  | oidc_callback_url => js "OIDC_CALLBACK_URL"
  | oidc_scope => js "OIDC_SCOPE"
  | oidc_issuer => js "OIDC_ISSUER"
  | oidc_auth_url => js "OIDC_AUTH_URL"
  | oidc_token_url => js "OIDC_TOKEN_URL"
  | oidc_userinfo_url => js "OIDC_USERINFO_URL"
  | mail_smtp_url => js "MAILER_SMTP_URL"
  | mail_from_address => js "MAILER_ADDRESS_FROM"
  end.

Definition sectionKeys (s : SectionId) : list jsstring := map fieldKey (sectionFields s).

(** Reading a field of a [Config]. *)
Definition getField (c : Config) (f : FieldId) : jsstring :=
  match f with
  | google_client_id => OAuth.client_id (fields (google (providers c)))
  | google_client_secret => OAuth.client_secret (fields (google (providers c)))
  | google_callback_url => OAuth.callback_url (fields (google (providers c)))
  | google_scope => OAuth.scope (fields (google (providers c)))
  | microsoft_client_id => Microsoft.client_id (fields (microsoft (providers c)))
  | microsoft_client_secret => Microsoft.client_secret (fields (microsoft (providers c)))
  | microsoft_callback_url => Microsoft.callback_url (fields (microsoft (providers c)))
  | microsoft_scope => Microsoft.scope (fields (microsoft (providers c)))
  | microsoft_tenant => Microsoft.tenant (fields (microsoft (providers c)))
  | github_client_id => OAuth.client_id (fields (github (providers c)))
  | github_client_secret => OAuth.client_secret (fields (github (providers c)))
  | github_callback_url => OAuth.callback_url (fields (github (providers c)))
  | github_scope => OAuth.scope (fields (github (providers c)))
  | oidc_client_id => Oidc.client_id (fields (oidc (providers c)))
  | oidc_client_secret => Oidc.client_secret (fields (oidc (providers c)))
  | oidc_callback_url => Oidc.callback_url (fields (oidc (providers c)))
  | oidc_scope => Oidc.scope (fields (oidc (providers c)))
  | oidc_issuer => Oidc.issuer (fields (oidc (providers c)))
  | oidc_auth_url => Oidc.auth_url (fields (oidc (providers c)))
  | oidc_token_url => Oidc.token_url (fields (oidc (providers c)))
  | oidc_userinfo_url => Oidc.userinfo_url (fields (oidc (providers c)))
  | mail_smtp_url => Mail.mailer_smtp_url (fields (mailConfigs c))
  | mail_from_address => Mail.mailer_from_address (fields (mailConfigs c))
  end.

(** The [enabled] flag of a section. *)
Definition sectionEnabled (c : Config) (s : SectionId) : bool :=
  match s with
  | s_google => enabled (google (providers c))
  | s_microsoft => enabled (microsoft (providers c))
  | s_github => enabled (github (providers c))
  | s_oidc => enabled (oidc (providers c))
  | s_mail => enabled (mailConfigs c)
  end.

(** An edit of the working copy: [section.enabled = b]. *)
Definition withEnabled {Nm F : Type} (b : bool) (s : SectionOf Nm F) : SectionOf Nm F :=
  {| name := name s; enabled := b; fields := fields s |}.

Definition setEnabled (s : SectionId) (b : bool) (c : Config) : Config :=
  let p := providers c in
  match s with
  | s_google =>
      {| providers := {| google := withEnabled b (google p); github := github p;
                         microsoft := microsoft p; oidc := oidc p |};
         mailConfigs := mailConfigs c; dataSharingConfigs := dataSharingConfigs c |}
  | s_microsoft =>
      {| providers := {| google := google p; github := github p;
                         microsoft := withEnabled b (microsoft p); oidc := oidc p |};
         mailConfigs := mailConfigs c; dataSharingConfigs := dataSharingConfigs c |}
  | s_github =>
      {| providers := {| google := google p; github := withEnabled b (github p);
                         microsoft := microsoft p; oidc := oidc p |};
         mailConfigs := mailConfigs c; dataSharingConfigs := dataSharingConfigs c |}
  | s_oidc =>
      {| providers := {| google := google p; github := github p;
                         microsoft := microsoft p; oidc := withEnabled b (oidc p) |};
         mailConfigs := mailConfigs c; dataSharingConfigs := dataSharingConfigs c |}
  | s_mail =>
      {| providers := p;
         mailConfigs := withEnabled b (mailConfigs c);
         dataSharingConfigs := dataSharingConfigs c |}
  end.

(** Every section switched on. *)
Definition enableAll (c : Config) : Config :=
  fold_right (fun s => setEnabled s true) c declarationOrder.

(** The entry a field contributes to the infra-config payload. *)
Definition entryOf (c : Config) (f : FieldId) : UpdatedConfigs :=
  {| e_name := fieldKey f; value := getField c f |}.

(** The fields of the sections that are switched on, in declaration order. *)
Definition enabledFields (c : Config) : list FieldId :=
  flat_map (fun s => if sectionEnabled c s then sectionFields s else []) declarationOrder.

(** The keys of the payload when every section is on. *)
Definition relevantKeys : list jsstring := map fieldKey allFields.

(** The sections the validator looks at, in the order of its array. *)
Definition validatedSections : list SectionId := [ s_github; s_google; s_microsoft; s_mail ].

(** The providers of the enable/disable payload, each with the section
    whose flag it reports. *)
Definition directiveSections : list (jsstring * SectionId) :=
  [ (js "GOOGLE", s_google); (js "MICROSOFT", s_microsoft);
    (js "GITHUB", s_github); (js "EMAIL", s_mail) ].

(** The four operations built on the dispatcher. *)
Inductive CallSite :=
| call_updateAuthProvider
| call_updateInfraConfigs
| call_resetInfraConfigs
| call_updateDataSharingConfigs.

Definition dispatch {World CombinedError : Type} (t : jsstring -> jsstring)
    (updatedConfigs : option Config) (site : CallSite)
    : Urql.UseMutationResponse World CombinedError -> M World bool :=
  match site with
  | call_updateAuthProvider => updateAuthProvider t updatedConfigs
  | call_updateInfraConfigs => updateInfraConfigs t updatedConfigs
  | call_resetInfraConfigs => resetInfraConfigs t
  | call_updateDataSharingConfigs => updateDataSharingConfigs t updatedConfigs
  end.

(** The message key the specification gives for each operation. *)
Definition failureKey (site : CallSite) : jsstring :=
  match site with
  | call_updateAuthProvider => js "configs.auth_providers.update_failure"
  | call_updateInfraConfigs => js "configs.mail_configs.update_failure"
  | call_resetInfraConfigs => js "configs.reset.failure"
  | call_updateDataSharingConfigs => js "configs.data_sharing.update_failure"
  end.

(** The [configNames] the infra-config query asks for. *)
Definition configNames : list jsstring :=
  [ js "GOOGLE_CLIENT_ID";
    js "GOOGLE_CLIENT_SECRET";
    js "GOOGLE_CALLBACK_URL";
    js "GOOGLE_SCOPE";
    js "MICROSOFT_CLIENT_ID";
    js "MICROSOFT_CLIENT_SECRET";
    js "MICROSOFT_CALLBACK_URL";
    js "MICROSOFT_SCOPE";
    js "MICROSOFT_TENANT";
    js "GITHUB_CLIENT_ID";
    js "GITHUB_CLIENT_SECRET";
    js "GITHUB_CALLBACK_URL";
    js "GITHUB_SCOPE";
    js "OIDC_CLIENT_ID";
    js "OIDC_CLIENT_SECRET";
    js "OIDC_CALLBACK_URL";
    js "OIDC_SCOPE";
    js "OIDC_ISSUER";
    js "OIDC_AUTH_URL";
    js "OIDC_TOKEN_URL";
    js "OIDC_USERINFO_URL";
    js "MAILER_SMTP_URL";
    js "MAILER_ADDRESS_FROM";
    js "ALLOW_ANALYTICS_COLLECTION" ].

(** The provider identifier the builder looks for to switch a section on. *)
Definition providerOf (s : SectionId) : jsstring :=
  match s with
  | s_google => js "GOOGLE"
  | s_microsoft => js "MICROSOFT"
  | s_github => js "GITHUB"
  | s_oidc => js "OIDC"
  | s_mail => js "EMAIL"
  end.

(** The section a field belongs to. *)
Definition sectionOf (f : FieldId) : SectionId :=
  match f with
  | google_client_id | google_client_secret | google_callback_url | google_scope => s_google
  | microsoft_client_id | microsoft_client_secret | microsoft_callback_url
  | microsoft_scope | microsoft_tenant => s_microsoft
  | github_client_id | github_client_secret | github_callback_url | github_scope => s_github
  | oidc_client_id | oidc_client_secret | oidc_callback_url | oidc_scope
  | oidc_issuer | oidc_auth_url | oidc_token_url | oidc_userinfo_url => s_oidc
  | mail_smtp_url | mail_from_address => s_mail
  end.

(** The variables an operation passes to its mutation. *)
Definition variablesOf (updatedConfigs : option Config) (site : CallSite) : AnyVariables :=
  match site with
  | call_updateAuthProvider => vars_providerInfo (updatedAllowedAuthProviders updatedConfigs)
  | call_updateInfraConfigs => vars_infraConfigs (updatedInfraConfigs updatedConfigs)
  | call_resetInfraConfigs => vars_undefined
  | call_updateDataSharingConfigs =>
      vars_status (if truthy (optChain updatedConfigs
                                       (fun c => ds_enabled (dataSharingConfigs c)))
                   then js "ENABLE" else js "DISABLE")
  end.

(** The same instance with other contents in its two refs. *)
Definition withRefs {World : Type} (current working : option Config)
    (s : Handler World) : Handler World :=
  {| currentConfigs := current; workingConfigs := working;
     toasts := toasts s; world := world s |}.

(* ===================================================================== *)
(** ** Sample data *)
(* ===================================================================== *)

(** A partial server response: two of the 24 keys. *)
Definition sampleInfra : list InfraConfig :=
  [ {| e_name := js "GOOGLE_CLIENT_ID"; value := js "abc" |};
    {| e_name := js "ALLOW_ANALYTICS_COLLECTION"; value := js "true" |} ].

(** A working copy with github and mail switched on and the other
    sections switched off but filled in; github's client id is blank. *)
Definition sampleConfig : Config :=
  {| providers := {|
       google := {| name := sso_google; enabled := false;
                    fields := OAuth.mk (js "i") (js "s") (js "u") (js "p") |};
       github := {| name := sso_github; enabled := true;
                    fields := OAuth.mk (js "  ") (js "s") (js "u") (js "p") |};
       microsoft := {| name := sso_microsoft; enabled := false;
                       fields := Microsoft.mk (js "i") (js "s") (js "u") (js "p") (js "t") |};
       oidc := {| name := sso_oidc; enabled := false;
                  fields := Oidc.mk (js "i") (js "s") (js "u") (js "p")
                                    (js "a") (js "b") (js "c") (js "d") |} |};
     mailConfigs := {| name := js "email"; enabled := true;
                       fields := Mail.mk (js "smtp://h") (js "a@b") |};
     dataSharingConfigs := {| ds_name := js "data_sharing"; ds_enabled := true |} |}.

(** A world that records the variables of every mutation sent to it. *)
Definition Recorder := list AnyVariables.

(** A mutation that succeeds, and one that resolves with an error. *)
Definition succeedingMutation : Urql.UseMutationResponse Recorder unit :=
  Urql.mkHandle _ _ (fun variables w => (Urql.mkResult _ None, w ++ [variables])).

Definition failingMutation : Urql.UseMutationResponse Recorder unit :=
  Urql.mkHandle _ _ (fun variables w => (Urql.mkResult _ (Some tt), w ++ [variables])).

(** A mounted instance with staged edits and nothing sent yet. *)
Definition sampleHandler : Handler Recorder :=
  {| currentConfigs := Some (buildConfig sampleInfra [ js "GOOGLE" ]);
     workingConfigs := Some sampleConfig;
     toasts := [];
     world := [] |}.

(** A complete server response: one entry for each requested name. *)
Definition fullInfra : list InfraConfig :=
  map (fun k => {| e_name := k; value := k ++ js "=v" |}) configNames.

(** [sampleConfig] with other contents where the payloads do not look:
    the fields of the sections that are off, and the data-sharing flag. *)
Definition sampleConfigEdited : Config :=
  {| providers := {|
       google := {| name := sso_google; enabled := false;
                    fields := OAuth.mk js_empty js_empty js_empty js_empty |};
       github := github (providers sampleConfig);
       microsoft := microsoft (providers sampleConfig);
       oidc := {| name := sso_oidc; enabled := false;
                  fields := Oidc.mk (js "x") (js "x") (js "x") (js "x")
                                    (js "x") (js "x") (js "x") (js "x") |} |};
     mailConfigs := mailConfigs sampleConfig;
     dataSharingConfigs := {| ds_name := js "data_sharing"; ds_enabled := false |} |}.

(** A working copy that passes the validator: google on and filled in. *)
Definition validConfig : Config :=
  {| providers := {|
       google := {| name := sso_google; enabled := true;
                    fields := OAuth.mk (js "i") (js "s") (js "u") (js "p") |};
       github := {| name := sso_github; enabled := false;
                    fields := OAuth.mk js_empty js_empty js_empty js_empty |};
       microsoft := microsoft (providers sampleConfig);
       oidc := {| name := sso_oidc; enabled := true;
                  fields := Oidc.mk js_empty js_empty js_empty js_empty
                                    js_empty js_empty js_empty js_empty |} |};
     mailConfigs := {| name := js "email"; enabled := false;
                       fields := Mail.mk js_empty js_empty |};
     dataSharingConfigs := {| ds_name := js "data_sharing"; ds_enabled := false |} |}.

(* ===================================================================== *)
(** ** Strings and lookups *)
(* ===================================================================== *)

Lemma streq_refl (a : jsstring) : streq a a = true.
Proof.
  induction a as [|x a IH]; simpl; [reflexivity|].
  now rewrite N.eqb_refl, IH.
Qed.

Lemma streq_eq (a b : jsstring) : streq a b = true <-> a = b.
Proof.
  split.
  - revert b; induction a as [|x a IH]; intros [|y b] H; simpl in H;
      try discriminate; [reflexivity|].
    apply andb_true_iff in H as [Hxy Hab].
    apply N.eqb_eq in Hxy. apply IH in Hab. now subst.
  - intros ->. apply streq_refl.
Qed.

Lemma streq_neq (a b : jsstring) : streq a b = false <-> a <> b.
Proof.
  rewrite <- streq_eq. destruct (streq a b); split; intro H;
    try reflexivity; try discriminate; try (intro; discriminate).
  exfalso; apply H; reflexivity.
Qed.

Lemma includes_In (l : list jsstring) (p : jsstring) : includes l p = true <-> In p l.
Proof.
  unfold includes. rewrite existsb_exists. split.
  - intros (x & Hx & E). apply streq_eq in E. now subst.
  - intros H. exists p. split; [assumption | apply streq_refl].
Qed.

(** A key that no entry carries reads as the empty string. *)
Lemma getFieldValue_absent (infra : list InfraConfig) (k : jsstring) :
  ~ In k (map e_name infra) -> getFieldValue infra k = js_empty.
Proof.
  intros Habs. unfold getFieldValue.
  destruct (find (fun x => streq (e_name x) k) infra) as [x|] eqn:E; [|reflexivity].
  apply find_some in E as [Hin Hk]. apply streq_eq in Hk.
  exfalso. apply Habs. rewrite <- Hk. now apply in_map.
Qed.

(** A key that some entry carries reads as the value of an entry of the list. *)
Lemma getFieldValue_present (infra : list InfraConfig) (k : jsstring) :
  In k (map e_name infra) -> In {| e_name := k; value := getFieldValue infra k |} infra.
Proof.
  intros Hin. unfold getFieldValue.
  destruct (find (fun x => streq (e_name x) k) infra) as [x|] eqn:E.
  - apply find_some in E as [Hx Hk]. apply streq_eq in Hk.
    destruct x as [n v]; simpl in *. now subst.
  - apply in_map_iff in Hin as (x & Hk & Hx).
    apply (find_none _ _ E) in Hx. rewrite Hk, streq_refl in Hx. discriminate.
Qed.

(** With unique names, the lookup of an entry's name gives that entry's value. *)
Lemma getFieldValue_unique (infra : list InfraConfig) (e : InfraConfig) :
  NoDup (map e_name infra) -> In e infra -> getFieldValue infra (e_name e) = value e.
Proof.
  induction infra as [|x infra IH]; intros Hnd Hin; [destruct Hin|].
  simpl in Hnd. inversion Hnd as [|? ? Hx Hnd']; subst.
  unfold getFieldValue. simpl.
  destruct Hin as [->|Hin].
  - now rewrite streq_refl.
  - destruct (streq (e_name x) (e_name e)) eqn:E.
    + apply streq_eq in E. exfalso. apply Hx. rewrite E. now apply in_map.
    + apply IH; assumption.
Qed.

(** On a built [Config], every field holds the lookup of its key. *)
Lemma getField_buildConfig (infra : list InfraConfig) (provs : list jsstring) (f : FieldId) :
  getField (buildConfig infra provs) f = getFieldValue infra (fieldKey f).
Proof. destruct f; reflexivity. Qed.

(** Switching sections on or off leaves the fields alone. *)
Lemma getField_setEnabled (s : SectionId) (b : bool) (c : Config) (f : FieldId) :
  getField (setEnabled s b c) f = getField c f.
Proof. destruct s, f; reflexivity. Qed.

Lemma getField_enableAll (c : Config) (f : FieldId) :
  getField (enableAll c) f = getField c f.
Proof. destruct f; reflexivity. Qed.

Lemma sectionEnabled_enableAll (c : Config) (s : SectionId) :
  sectionEnabled (enableAll c) s = true.
Proof. destruct s; reflexivity. Qed.

(** Keys identify their section: a field's key is among a section's keys
    only when the field belongs to that section. *)
Lemma fieldKey_section (f : FieldId) (s : SectionId) :
  In (fieldKey f) (sectionKeys s) -> In f (sectionFields s).
Proof.
  intros H.
  assert (Hb : existsb (streq (fieldKey f)) (sectionKeys s) = true).
  { apply existsb_exists. exists (fieldKey f). split; [assumption | apply streq_refl]. }
  clear H. destruct f, s; vm_compute in Hb; try discriminate Hb; simpl; tauto.
Qed.

(** A field belongs to one section only. *)
Lemma sectionFields_disjoint (f : FieldId) (s s' : SectionId) :
  In f (sectionFields s) -> In f (sectionFields s') -> s = s'.
Proof.
  destruct f, s; simpl; intros H; try (exfalso; intuition discriminate);
    destruct s'; simpl; intros H'; try reflexivity; exfalso; intuition discriminate.
Qed.

Lemma fieldKey_nonempty (f : FieldId) : fieldKey f <> js_empty.
Proof. destruct f; discriminate. Qed.

(* ===================================================================== *)
(** ** The infra-config reverse transform, in closed form *)
(* ===================================================================== *)

(** The chain of [push] and [filter] steps leaves exactly the entries of
    the sections that are switched on, in declaration order. *)
Lemma updatedInfraConfigs_Some (c : Config) :
  updatedInfraConfigs (Some c) = map (entryOf c) (enabledFields c).
Proof.
  destruct c as [[[gn ge gf] [hn he hf] [mn me mf] [on oe ob]] [ln le lf] ds].
  destruct ge, me, he, oe, le; vm_compute; reflexivity.
Qed.

Lemma In_enabledFields (c : Config) (f : FieldId) :
  In f (enabledFields c) <->
  exists s, sectionEnabled c s = true /\ In f (sectionFields s).
Proof.
  unfold enabledFields. rewrite in_flat_map. split.
  - intros (s & _ & Hf). exists s.
    destruct (sectionEnabled c s); [auto | destruct Hf].
  - intros (s & He & Hf). exists s. rewrite He. split; [|assumption].
    destruct s; simpl; tauto.
Qed.

(* ===================================================================== *)
(** ** The view-model builder *)
(* ===================================================================== *)

(** C2.  The built [dataSharingConfigs.enabled] is [true] exactly when the
    fetched list has an entry named [ALLOW_ANALYTICS_COLLECTION] whose
    value is the string ['true']; it is [false] exactly when no entry of
    that name has that value, be the entry absent or valued otherwise. *)
Theorem dataSharing_enabled_iff (infra : list InfraConfig) (provs : list jsstring) :
  (ds_enabled (dataSharingConfigs (buildConfig infra provs)) = true <->
   exists x, In x infra /\
             e_name x = js "ALLOW_ANALYTICS_COLLECTION" /\ value x = js "true")
  /\
  (ds_enabled (dataSharingConfigs (buildConfig infra provs)) = false <->
   forall x, In x infra ->
             e_name x = js "ALLOW_ANALYTICS_COLLECTION" -> value x <> js "true").
Proof.
  simpl.
  destruct (find (fun x => streq (e_name x) (js "ALLOW_ANALYTICS_COLLECTION")
                           && streq (value x) (js "true")) infra) as [x|] eqn:E.
  - apply find_some in E as [Hin Hx].
    apply andb_true_iff in Hx as [Hn Hv].
    apply streq_eq in Hn. apply streq_eq in Hv.
    split; split; intro H; try reflexivity; try discriminate.
    + exists x. auto.
    + exfalso. exact (H x Hin Hn Hv).
  - split; split; intro H; try reflexivity; try discriminate.
    + destruct H as (x & Hin & Hn & Hv).
      apply (find_none _ _ E) in Hin.
      rewrite Hn, Hv in Hin. discriminate.
    + intros x Hin Hn Hv.
      apply (find_none _ _ E) in Hin.
      rewrite Hn, Hv in Hin. discriminate.
Qed.

(** The values ['TRUE'] and ['1'], and a list without the entry, leave the
    flag off; a later entry valued ['true'] switches it on. *)
Example dataSharing_samples :
  ds_enabled (dataSharingConfigs (buildConfig
    [ {| e_name := js "ALLOW_ANALYTICS_COLLECTION"; value := js "TRUE" |} ] [])) = false /\
  ds_enabled (dataSharingConfigs (buildConfig
    [ {| e_name := js "ALLOW_ANALYTICS_COLLECTION"; value := js "1" |} ] [])) = false /\
  ds_enabled (dataSharingConfigs (buildConfig
    [ {| e_name := js "GOOGLE_CLIENT_ID"; value := js "true" |} ] [])) = false /\
  ds_enabled (dataSharingConfigs (buildConfig
    [ {| e_name := js "ALLOW_ANALYTICS_COLLECTION"; value := js "1" |};
      {| e_name := js "ALLOW_ANALYTICS_COLLECTION"; value := js "true" |} ] [])) = true.
Proof. repeat split. Qed.

(** C7.  Whatever keys the fetched list misses, the builder yields a
    [Config] (it is a total function: no lookup can fail), and each of its
    23 fields whose key no entry of the list carries is the empty string. *)
Theorem buildConfig_missing_key (infra : list InfraConfig) (provs : list jsstring)
    (f : FieldId) :
  ~ In (fieldKey f) (map e_name infra) ->
  getField (buildConfig infra provs) f = js_empty.
Proof.
  intros Habs. rewrite getField_buildConfig. now apply getFieldValue_absent.
Qed.

Lemma buildConfig_missing_key_witness :
  ~ In (fieldKey github_client_id) (map e_name sampleInfra)
  /\ getField (buildConfig sampleInfra [ js "GOOGLE" ]) github_client_id = js_empty.
Proof.
  assert (H : ~ In (fieldKey github_client_id) (map e_name sampleInfra)).
  { simpl. intros [H|[H|[]]]; discriminate H. }
  split; [exact H | exact (buildConfig_missing_key sampleInfra [ js "GOOGLE" ] github_client_id H)].
Defined.

(** The scenario of the specification: one Google key, analytics on, and
    Google the only allowed provider. *)
Example buildConfig_scenario :
  let c := buildConfig sampleInfra [ js "GOOGLE" ] in
  map (sectionEnabled c) declarationOrder = [ true; false; false; false; false ] /\
  ds_enabled (dataSharingConfigs c) = true /\
  map (getField c) allFields = js "abc" :: repeat (js_empty) 22.
Proof. repeat split. Qed.

(** Mounting stores the built [Config] in both refs, whatever the two
    reads returned. *)
Lemma onMounted_refs (World : Type)
    (fetchInfraConfigs : World -> list InfraConfig * World)
    (fetchAllowedAuthProviders : World -> list jsstring * World) (w : World) :
  let s := execState (onMounted fetchInfraConfigs fetchAllowedAuthProviders) (setup w) in
  let c := buildConfig (fst (fetchInfraConfigs w))
                       (fst (fetchAllowedAuthProviders (snd (fetchInfraConfigs w)))) in
  currentConfigs s = Some c /\ workingConfigs s = Some c.
Proof.
  unfold execState, onMounted, external. simpl.
  destruct (fetchInfraConfigs w) as [infra w1]. simpl.
  destruct (fetchAllowedAuthProviders w1) as [provs w2]. simpl.
  split; reflexivity.
Qed.

(* ===================================================================== *)
(** ** The infra-config reverse transform *)
(* ===================================================================== *)

(** C6.  The output lists the sections that are switched on in the order
    google, microsoft, github, oidc, mail, each with its keys in the order
    of its [push] and each key with the value of its field; the seed entry
    is gone: no entry of the output has the empty name. *)
Theorem updatedInfraConfigs_order (c : Config) :
  updatedInfraConfigs (Some c)
  = flat_map (fun s => if sectionEnabled c s
                       then map (entryOf c) (sectionFields s) else [])
             [ s_google; s_microsoft; s_github; s_oidc; s_mail ]
  /\ Forall (fun e => e_name e <> js_empty) (updatedInfraConfigs (Some c))
  /\ ~ In {| e_name := js_empty; value := js_empty |} (updatedInfraConfigs (Some c)).
Proof.
  assert (Hne : Forall (fun e => e_name e <> js_empty) (updatedInfraConfigs (Some c))).
  { rewrite updatedInfraConfigs_Some. apply Forall_forall.
    intros e He. apply in_map_iff in He as (f & <- & _). apply fieldKey_nonempty. }
  split; [|split].
  - rewrite updatedInfraConfigs_Some. unfold enabledFields.
    rewrite flat_map_concat_map, concat_map, map_map, <- flat_map_concat_map.
    apply flat_map_ext. intros s. now destruct (sectionEnabled c s).
  - exact Hne.
  - intros Hin. rewrite Forall_forall in Hne. now apply (Hne _ Hin).
Qed.

(** The order on a sample: github and mail on, the others off but filled. *)
Example updatedInfraConfigs_sample :
  updatedInfraConfigs (Some sampleConfig)
  = [ {| e_name := js "GITHUB_CLIENT_ID"; value := js "  " |};
      {| e_name := js "GITHUB_CLIENT_SECRET"; value := js "s" |};
      {| e_name := js "GITHUB_CALLBACK_URL"; value := js "u" |};
      {| e_name := js "GITHUB_SCOPE"; value := js "p" |};
      {| e_name := js "MAILER_SMTP_URL"; value := js "smtp://h" |};
      {| e_name := js "MAILER_ADDRESS_FROM"; value := js "a@b" |} ].
Proof. reflexivity. Qed.

(** C3.  When a section (google, microsoft, github, oidc or mail) is
    switched off, no entry of the output is named by one of that section's
    keys, whatever strings the section's fields hold. *)
Theorem updatedInfraConfigs_disabled (c : Config) (s : SectionId) :
  sectionEnabled c s = false ->
  forall e, In e (updatedInfraConfigs (Some c)) -> ~ In (e_name e) (sectionKeys s).
Proof.
  intros Hoff e He Hkey.
  rewrite updatedInfraConfigs_Some in He.
  apply in_map_iff in He as (f & <- & Hf).
  apply In_enabledFields in Hf as (s' & Hon & Hf).
  apply fieldKey_section in Hkey. simpl in Hkey.
  rewrite (sectionFields_disjoint _ _ _ Hf Hkey), Hoff in Hon. discriminate.
Qed.

Lemma updatedInfraConfigs_disabled_witness :
  sectionEnabled sampleConfig s_google = false /\
  In {| e_name := js "GITHUB_SCOPE"; value := js "p" |}
     (updatedInfraConfigs (Some sampleConfig)) /\
  ~ In (js "GITHUB_SCOPE") (sectionKeys s_google).
Proof.
  assert (Hoff : sectionEnabled sampleConfig s_google = false) by reflexivity.
  assert (Hin : In {| e_name := js "GITHUB_SCOPE"; value := js "p" |}
                   (updatedInfraConfigs (Some sampleConfig))).
  { vm_compute. tauto. }
  split; [exact Hoff | split; [exact Hin |]].
  exact (updatedInfraConfigs_disabled sampleConfig s_google Hoff _ Hin).
Defined.

(** C1.  Build a [Config] from any fetched list and any provider list,
    switch every section on, and transform back: the result lists the 23
    payload keys in their fixed order, each with the value the fetched
    list gives it (the empty string for a key the list lacks).  So every
    pair of the result is a pair of the input or the default of an absent
    key; the first input pair of each payload key is in the result; and
    when the input names are unique, every input pair with a payload key
    is.  [ALLOW_ANALYTICS_COLLECTION] is no payload key. *)
Theorem roundtrip_all_enabled (infra : list InfraConfig) (provs : list jsstring) :
  updatedInfraConfigs (Some (enableAll (buildConfig infra provs)))
  = map (fun k => {| e_name := k; value := getFieldValue infra k |}) relevantKeys
  /\ (forall e, In e (updatedInfraConfigs (Some (enableAll (buildConfig infra provs)))) ->
        In e infra \/ (~ In (e_name e) (map e_name infra) /\ value e = js_empty))
  /\ (forall k e, In k relevantKeys ->
        find (fun x => streq (e_name x) k) infra = Some e ->
        In e (updatedInfraConfigs (Some (enableAll (buildConfig infra provs)))))
  /\ (NoDup (map e_name infra) ->
      forall e, In e infra -> In (e_name e) relevantKeys ->
        In e (updatedInfraConfigs (Some (enableAll (buildConfig infra provs))))).
Proof.
  assert (Heq : updatedInfraConfigs (Some (enableAll (buildConfig infra provs)))
                = map (fun k => {| e_name := k; value := getFieldValue infra k |}) relevantKeys).
  { rewrite updatedInfraConfigs_Some. unfold relevantKeys. rewrite map_map.
    replace (enabledFields (enableAll (buildConfig infra provs))) with allFields
      by reflexivity.
    apply map_ext. intros f. unfold entryOf.
    now rewrite getField_enableAll, getField_buildConfig. }
  rewrite Heq. split; [reflexivity|]. split; [|split].
  - intros e He. apply in_map_iff in He as (k & <- & _). simpl.
    destruct (in_dec (list_eq_dec N.eq_dec) k (map e_name infra)) as [Hin|Hout].
    + left. now apply getFieldValue_present.
    + right. split; [assumption | now apply getFieldValue_absent].
  - intros k e Hk Hfind. apply in_map_iff. exists k. split; [|assumption].
    unfold getFieldValue. rewrite Hfind.
    apply find_some in Hfind as [_ Hn]. apply streq_eq in Hn.
    destruct e as [n v]; simpl in *. now subst.
  - intros Hnd e He Hk. apply in_map_iff. exists (e_name e). split; [|assumption].
    rewrite (getFieldValue_unique infra e Hnd He). now destruct e.
Qed.

Lemma roundtrip_all_enabled_witness :
  updatedInfraConfigs (Some (enableAll (buildConfig sampleInfra [ js "GOOGLE" ])))
  = {| e_name := js "GOOGLE_CLIENT_ID"; value := js "abc" |}
    :: map (fun k => {| e_name := k; value := js_empty |}) (tl relevantKeys)
  /\ NoDup (map e_name sampleInfra)
  /\ In {| e_name := js "GOOGLE_CLIENT_ID"; value := js "abc" |}
        (updatedInfraConfigs (Some (enableAll (buildConfig sampleInfra [ js "GOOGLE" ])))).
Proof.
  destruct (roundtrip_all_enabled sampleInfra [ js "GOOGLE" ]) as (Heq & _ & _ & Huniq).
  assert (Hnd : NoDup (map e_name sampleInfra)).
  { simpl. repeat constructor; simpl; intuition discriminate. }
  split; [rewrite Heq; reflexivity | split; [exact Hnd |]].
  apply (Huniq Hnd); [simpl; tauto | vm_compute; tauto].
Defined.

(** With every provider allowed, the built [Config] already has every
    section on, and transforms back as it is. *)
Lemma enableAll_all_allowed (infra : list InfraConfig) (provs : list jsstring) :
  (forall p, In p [ js "GOOGLE"; js "MICROSOFT"; js "GITHUB"; js "OIDC"; js "EMAIL" ] ->
             In p provs) ->
  enableAll (buildConfig infra provs) = buildConfig infra provs.
Proof.
  intros Hall.
  assert (H : forall p, In p [ js "GOOGLE"; js "MICROSOFT"; js "GITHUB"; js "OIDC"; js "EMAIL" ] ->
                        includes provs p = true).
  { intros p Hp. apply includes_In. now apply Hall. }
  unfold enableAll, buildConfig. simpl. unfold withEnabled. simpl.
  rewrite !H by (simpl; tauto). reflexivity.
Qed.

(* ===================================================================== *)
(** ** The auth-provider reverse transform *)
(* ===================================================================== *)

(** C4.  For every [Config] the transform returns exactly four directives,
    for GOOGLE, MICROSOFT, GITHUB and EMAIL in this order, and the status
    of each is ['ENABLE'] when its section is switched on and ['DISABLE']
    when it is not. *)
Theorem updatedAllowedAuthProviders_four (c : Config) :
  length (updatedAllowedAuthProviders (Some c)) = 4%nat
  /\ map provider (updatedAllowedAuthProviders (Some c))
     = [ js "GOOGLE"; js "MICROSOFT"; js "GITHUB"; js "EMAIL" ]
  /\ updatedAllowedAuthProviders (Some c)
     = map (fun ps => {| provider := fst ps;
                         status := if sectionEnabled c (snd ps)
                                   then js "ENABLE" else js "DISABLE" |})
           directiveSections.
Proof. repeat split. Qed.

Example updatedAllowedAuthProviders_sample :
  updatedAllowedAuthProviders (Some sampleConfig)
  = [ {| provider := js "GOOGLE"; status := js "DISABLE" |};
      {| provider := js "MICROSOFT"; status := js "DISABLE" |};
      {| provider := js "GITHUB"; status := js "ENABLE" |};
      {| provider := js "EMAIL"; status := js "ENABLE" |} ].
Proof. reflexivity. Qed.

(* ===================================================================== *)
(** ** The validator *)
(* ===================================================================== *)

Lemma trimStart_nil_iff (s : jsstring) : trimStart s = [] <-> forallb isWhiteSpace s = true.
Proof.
  induction s as [|c s IH]; simpl; [tauto|].
  destruct (isWhiteSpace c); simpl; [exact IH|].
  split; discriminate.
Qed.

(** What [trimStart] leaves does not start with white space. *)
Lemma trimStart_head (s : jsstring) (c : code_unit) (r : jsstring) :
  trimStart s = c :: r -> isWhiteSpace c = false.
Proof.
  induction s as [|x s IH]; simpl; [discriminate|].
  destruct (isWhiteSpace x) eqn:E; [exact IH|].
  intros H. injection H as -> _. exact E.
Qed.

(** A string trims to the empty string exactly when it is all white space. *)
Lemma trim_nil_iff (s : jsstring) : trim s = js_empty <-> forallb isWhiteSpace s = true.
Proof.
  rewrite <- trimStart_nil_iff. unfold trim, trimEnd. split.
  - intros H. apply (f_equal (@rev code_unit)) in H.
    rewrite rev_involutive in H. simpl in H.
    apply trimStart_nil_iff in H.
    destruct (trimStart s) as [|c r] eqn:E; [reflexivity|].
    apply trimStart_head in E.
    rewrite forallb_forall in H.
    rewrite (H c) in E; [discriminate|].
    apply in_rev. rewrite rev_involutive. now left.
  - intros ->. reflexivity.
Qed.

(** The validator as one test over its four sections and their fields. *)
Lemma AreAnyConfigFieldsEmpty_unfold (c : Config) :
  AreAnyConfigFieldsEmpty c
  = existsb (fun s => sectionEnabled c s
                      && existsb (fun f => isFieldEmpty (getField c f)) (sectionFields s))
            validatedSections.
Proof. reflexivity. Qed.

(** C5.  The validator answers [true] exactly when one of github, google,
    microsoft, mail is switched on and has a field that trims to the empty
    string.  A section that is switched off never counts, and the answer
    does not depend on the oidc and data-sharing sections. *)
Theorem AreAnyConfigFieldsEmpty_iff (c : Config) :
  (AreAnyConfigFieldsEmpty c = true <->
   exists s, In s [ s_github; s_google; s_microsoft; s_mail ] /\
             sectionEnabled c s = true /\
             exists f, In f (sectionFields s) /\ trim (getField c f) = js_empty)
  /\
  (forall (o : SectionOf SsoAuthProviders Oidc.Fields) (d : DataSharing),
     AreAnyConfigFieldsEmpty
       {| providers := {| google := google (providers c); github := github (providers c);
                          microsoft := microsoft (providers c); oidc := o |};
          mailConfigs := mailConfigs c;
          dataSharingConfigs := d |}
     = AreAnyConfigFieldsEmpty c).
Proof.
  split; [|reflexivity].
  rewrite AreAnyConfigFieldsEmpty_unfold, existsb_exists.
  split.
  - intros (s & Hs & H). apply andb_true_iff in H as [Hon H].
    apply existsb_exists in H as (f & Hf & H).
    exists s. repeat split; try assumption.
    exists f. split; [assumption|]. now apply streq_eq.
  - intros (s & Hs & Hon & f & Hf & H).
    exists s. split; [assumption|]. rewrite Hon. simpl.
    apply existsb_exists. exists f. split; [assumption|].
    unfold isFieldEmpty. rewrite H. reflexivity.
Qed.

(** The examples of the specification: github on with a blank client id
    is caught (here the id is two spaces); with github off, nothing is,
    even when all of github's fields are empty. *)
Example AreAnyConfigFieldsEmpty_samples :
  AreAnyConfigFieldsEmpty sampleConfig = true /\
  AreAnyConfigFieldsEmpty (setEnabled s_github false sampleConfig) = false /\
  AreAnyConfigFieldsEmpty
    {| providers := {| google := google (providers sampleConfig);
                       github := {| name := sso_github; enabled := false;
                                    fields := OAuth.mk (js_empty) (js_empty) (js_empty) (js_empty) |};
                       microsoft := microsoft (providers sampleConfig);
                       oidc := {| name := sso_oidc; enabled := true;
                                  fields := Oidc.mk (js_empty) (js_empty) (js_empty) (js_empty)
                                                    (js_empty) (js_empty) (js_empty) (js_empty) |} |};
       mailConfigs := mailConfigs sampleConfig;
       dataSharingConfigs := dataSharingConfigs sampleConfig |} = false.
Proof. repeat split. Qed.

(* ===================================================================== *)
(** ** The mutation dispatcher *)
(* ===================================================================== *)

Section Dispatcher.

Variables World CombinedError : Type.
Variable t : jsstring -> jsstring.
Variable updatedConfigs : option Config.

Implicit Types (mutation : Urql.UseMutationResponse World CombinedError)
               (s : Handler World).

(** Case split on what the mutation resolved to: an error or none. *)
Ltac resolve_mutation :=
  match goal with
  | |- context [Urql.executeMutation ?m ?v ?w] =>
      destruct (Urql.executeMutation m v w) as [[[?|]] ?]
  end.

(** One run of the dispatcher: the mutation is executed once on the
    current world; an error adds the translated message to the toasts
    and answers [false]; no error adds nothing and answers [true]. *)
Lemma executeMutation_run mutation (variables : AnyVariables) (errorMessage : jsstring) s :
  runState (executeMutation t mutation variables errorMessage) s
  = let (result, w) := Urql.executeMutation mutation variables (world s) in
    match Urql.error result with
    | Some _ => (false, {| currentConfigs := currentConfigs s;
                           workingConfigs := workingConfigs s;
                           toasts := toasts s ++ [t errorMessage];
                           world := w |})
    | None => (true, {| currentConfigs := currentConfigs s;
                        workingConfigs := workingConfigs s;
                        toasts := toasts s;
                        world := w |})
    end.
Proof.
  unfold executeMutation, external, toast_error. simpl.
  resolve_mutation;
    reflexivity.
Qed.

(** The dispatcher never writes the two refs. *)
Lemma executeMutation_frame mutation (variables : AnyVariables) (errorMessage : jsstring) s :
  currentConfigs (execState (executeMutation t mutation variables errorMessage) s)
  = currentConfigs s
  /\ workingConfigs (execState (executeMutation t mutation variables errorMessage) s)
     = workingConfigs s.
Proof.
  unfold execState. rewrite executeMutation_run.
  resolve_mutation;
    split; reflexivity.
Qed.

(** Each operation is the dispatcher at some variables and at the key
    of that operation. *)
Lemma dispatch_executeMutation (site : CallSite) mutation :
  exists variables,
    dispatch t updatedConfigs site mutation
    = executeMutation t mutation variables (failureKey site).
Proof. destruct site; eexists; reflexivity. Qed.

(** C8.  The dispatcher, at any mutation handle, variables and message
    key, answers [false] and adds exactly one toast, the translation of
    the key it was given, when the result of the mutation carries an
    error; otherwise it answers [true] and adds no toast.  The four
    operations do so with the keys
    [configs.auth_providers.update_failure] (provider enable/disable),
    [configs.mail_configs.update_failure] (infra-config update),
    [configs.reset.failure] (reset) and
    [configs.data_sharing.update_failure] (data-sharing toggle). *)
Theorem executeMutation_toast :
  (forall mutation (variables : AnyVariables) (errorMessage : jsstring) s,
     let r := runState (executeMutation t mutation variables errorMessage) s in
     match Urql.error (fst (Urql.executeMutation mutation variables (world s))) with
     | Some _ => fst r = false /\ toasts (snd r) = toasts s ++ [t errorMessage]
     | None => fst r = true /\ toasts (snd r) = toasts s
     end)
  /\
  (forall (site : CallSite) mutation s,
     let r := runState (dispatch t updatedConfigs site mutation) s in
     exists variables,
       world (snd r) = snd (Urql.executeMutation mutation variables (world s)) /\
       match Urql.error (fst (Urql.executeMutation mutation variables (world s))) with
       | Some _ => fst r = false /\ toasts (snd r) = toasts s ++ [t (failureKey site)]
       | None => fst r = true /\ toasts (snd r) = toasts s
       end)
  /\
  map failureKey [ call_updateAuthProvider; call_updateInfraConfigs;
                   call_resetInfraConfigs; call_updateDataSharingConfigs ]
  = [ js "configs.auth_providers.update_failure";
      js "configs.mail_configs.update_failure";
      js "configs.reset.failure";
      js "configs.data_sharing.update_failure" ].
Proof.
  split; [|split; [|reflexivity]].
  - intros mutation variables errorMessage s. cbv zeta.
    rewrite executeMutation_run.
    resolve_mutation;
      split; reflexivity.
  - intros site mutation s. cbv zeta.
    destruct (dispatch_executeMutation site mutation) as (variables & ->).
    exists variables. rewrite executeMutation_run.
    resolve_mutation;
      repeat split; reflexivity.
Qed.

(** C9.  An operation that fails (the dispatcher answers [false]) leaves
    [currentConfigs] and [workingConfigs] as they were: the staged edits
    are still there. *)
Theorem failed_mutation_keeps_configs (site : CallSite) mutation s :
  evalState (dispatch t updatedConfigs site mutation) s = false ->
  currentConfigs (execState (dispatch t updatedConfigs site mutation) s) = currentConfigs s
  /\ workingConfigs (execState (dispatch t updatedConfigs site mutation) s) = workingConfigs s.
Proof.
  intros _.
  destruct (dispatch_executeMutation site mutation) as (variables & ->).
  apply executeMutation_frame.
Qed.

(** C10.  Without the optional argument ([updatedConfigs] undefined) the
    infra-config payload is the empty list, the four directives all have
    status ['DISABLE'], and the data-sharing toggle runs its mutation
    with [{ status: 'DISABLE' }]. *)
Theorem undefined_updatedConfigs :
  updatedInfraConfigs None = []
  /\ updatedAllowedAuthProviders None
     = [ {| provider := js "GOOGLE"; status := js "DISABLE" |};
         {| provider := js "MICROSOFT"; status := js "DISABLE" |};
         {| provider := js "GITHUB"; status := js "DISABLE" |};
         {| provider := js "EMAIL"; status := js "DISABLE" |} ]
  /\ (forall mutation s,
        runState (updateDataSharingConfigs t None mutation) s
        = runState (executeMutation t mutation (vars_status (js "DISABLE"))
                                    (js "configs.data_sharing.update_failure")) s
        /\ world (execState (updateDataSharingConfigs t None mutation) s)
           = snd (Urql.executeMutation mutation (vars_status (js "DISABLE")) (world s))).
Proof.
  split; [reflexivity|]. split; [reflexivity|].
  intros mutation s. split; [reflexivity|].
  change (updateDataSharingConfigs t None mutation)
    with (executeMutation t mutation (vars_status (js "DISABLE"))
                          (js "configs.data_sharing.update_failure")).
  unfold execState. rewrite executeMutation_run.
  resolve_mutation; reflexivity.
Qed.

End Dispatcher.

Lemma failed_mutation_keeps_configs_witness :
  evalState (dispatch (fun key => key) (Some sampleConfig)
                      call_updateInfraConfigs failingMutation) sampleHandler = false
  /\ currentConfigs (execState (dispatch (fun key => key) (Some sampleConfig)
                                         call_updateInfraConfigs failingMutation) sampleHandler)
     = Some (buildConfig sampleInfra [ js "GOOGLE" ])
  /\ workingConfigs (execState (dispatch (fun key => key) (Some sampleConfig)
                                         call_updateInfraConfigs failingMutation) sampleHandler)
     = Some sampleConfig.
Proof.
  assert (Hfail : evalState (dispatch (fun key => key) (Some sampleConfig)
                      call_updateInfraConfigs failingMutation) sampleHandler = false)
    by reflexivity.
  split; [exact Hfail|].
  exact (failed_mutation_keeps_configs Recorder unit (fun key => key) (Some sampleConfig)
           call_updateInfraConfigs failingMutation sampleHandler Hfail).
Defined.

(** A failed save on the sample: one toast, the mail-configs key, and the
    payload that was sent. *)
Example failed_save_sample :
  runState (updateInfraConfigs (fun key => key) (Some sampleConfig) failingMutation)
           sampleHandler
  = (false,
     {| currentConfigs := Some (buildConfig sampleInfra [ js "GOOGLE" ]);
        workingConfigs := Some sampleConfig;
        toasts := [ js "configs.mail_configs.update_failure" ];
        world := [ vars_infraConfigs (updatedInfraConfigs (Some sampleConfig)) ] |}).
Proof. reflexivity. Qed.

(** Without the optional argument, a recorded toggle and a recorded save. *)
Example undefined_updatedConfigs_sample :
  world (execState (updateDataSharingConfigs (fun key => key) None succeedingMutation)
                   sampleHandler)
  = [ vars_status (js "DISABLE") ]
  /\ world (execState (updateInfraConfigs (fun key => key) None succeedingMutation)
                      sampleHandler)
     = [ vars_infraConfigs [] ].
Proof. split; reflexivity. Qed.

(* ===================================================================== *)
(** ** More on the view-model builder *)
(* ===================================================================== *)

Lemma find_is_existsb {A : Type} (q : A -> bool) (l : list A) :
  match find q l with Some _ => true | None => false end = existsb q l.
Proof.
  induction l as [|x l IH]; simpl; [reflexivity|].
  now destruct (q x).
Qed.

(** Dropping entries a test never accepts does not change what it finds. *)
Lemma find_filter {A : Type} (p q : A -> bool) (l : list A) :
  (forall x, q x = true -> p x = true) -> find q (filter p l) = find q l.
Proof.
  intros Hqp. induction l as [|x l IH]; simpl; [reflexivity|].
  destruct (p x) eqn:Hp; simpl.
  - now rewrite IH.
  - destruct (q x) eqn:Hq; [|exact IH].
    apply Hqp in Hq. congruence.
Qed.

(** Two builds agree when their lookups of the 23 keys, their analytics
    test and their provider tests do. *)
Lemma buildConfig_ext (infra infra' : list InfraConfig) (provs provs' : list jsstring) :
  (forall f, getFieldValue infra (fieldKey f) = getFieldValue infra' (fieldKey f)) ->
  ds_enabled (dataSharingConfigs (buildConfig infra provs))
  = ds_enabled (dataSharingConfigs (buildConfig infra' provs')) ->
  (forall p, includes provs p = includes provs' p) ->
  buildConfig infra provs = buildConfig infra' provs'.
Proof.
  intros Hg Hd Hi.
  assert (H : Forall (fun f => getFieldValue infra (fieldKey f)
                               = getFieldValue infra' (fieldKey f)) allFields)
    by (apply Forall_forall; auto).
  unfold allFields in H. cbn [flat_map declarationOrder sectionFields app] in H.
  repeat (apply Forall_cons_iff in H; destruct H as [? H]).
  cbn [fieldKey] in *.
  unfold buildConfig in *. cbv zeta. simpl in Hd.
  rewrite Hd.
  rewrite (Hi (js "GOOGLE")), (Hi (js "GITHUB")), (Hi (js "MICROSOFT")),
    (Hi (js "OIDC")), (Hi (js "EMAIL")).
  repeat match goal with
         | E : getFieldValue infra _ = _ |- _ => rewrite E; clear E
         end.
  reflexivity.
Qed.

(** The keys of the fields are among the requested names. *)
Lemma fieldKey_requested (f : FieldId) : includes configNames (fieldKey f) = true.
Proof. destruct f; reflexivity. Qed.

(** X1.  A section of the built [Config] is switched on exactly when the
    list of allowed providers holds its identifier: GOOGLE, MICROSOFT,
    GITHUB, OIDC, EMAIL for google, microsoft, github, oidc, mail. *)
Theorem buildConfig_enabled_iff (infra : list InfraConfig) (provs : list jsstring)
    (s : SectionId) :
  sectionEnabled (buildConfig infra provs) s = true <-> In (providerOf s) provs.
Proof. destruct s; simpl; apply includes_In. Qed.

(** X2.  The first entry of a name decides: when an entry [e] named by a
    field's key comes after entries of other names only, the built field
    is the value of [e], whatever follows it (later entries of the same
    name included). *)
Theorem buildConfig_first_entry (before after : list InfraConfig) (e : InfraConfig)
    (provs : list jsstring) (f : FieldId) :
  e_name e = fieldKey f ->
  ~ In (fieldKey f) (map e_name before) ->
  getField (buildConfig (before ++ e :: after) provs) f = value e.
Proof.
  intros He Hb. rewrite getField_buildConfig. unfold getFieldValue.
  induction before as [|x before IH]; simpl.
  - now rewrite He, streq_refl.
  - destruct (streq (e_name x) (fieldKey f)) eqn:E.
    + apply streq_eq in E. exfalso. apply Hb. now left.
    + apply IH. intros Hin. apply Hb. now right.
Qed.

Lemma buildConfig_first_entry_witness :
  getField (buildConfig
              ([ {| e_name := js "GOOGLE_SCOPE"; value := js "email" |} ]
               ++ {| e_name := js "GOOGLE_CLIENT_ID"; value := js "first" |}
               :: [ {| e_name := js "GOOGLE_CLIENT_ID"; value := js "second" |} ])
              []) google_client_id
  = js "first".
Proof.
  apply (buildConfig_first_entry
           [ {| e_name := js "GOOGLE_SCOPE"; value := js "email" |} ]
           [ {| e_name := js "GOOGLE_CLIENT_ID"; value := js "second" |} ]
           {| e_name := js "GOOGLE_CLIENT_ID"; value := js "first" |}
           [] google_client_id).
  - reflexivity.
  - simpl. intros [H|[]]. discriminate H.
Defined.

(** X3.  The builder reads the requested names only: entries of the
    fetched list under any other name can be dropped without changing
    the built [Config]. *)
Theorem buildConfig_ignores_unrequested (infra : list InfraConfig) (provs : list jsstring) :
  buildConfig (filter (fun e => includes configNames (e_name e)) infra) provs
  = buildConfig infra provs.
Proof.
  apply buildConfig_ext; [| |reflexivity].
  - intros f. unfold getFieldValue.
    rewrite find_filter; [reflexivity|].
    intros x Hx. apply streq_eq in Hx. rewrite Hx. apply fieldKey_requested.
  - simpl. rewrite find_filter; [reflexivity|].
    intros x Hx. apply andb_true_iff in Hx as [Hx _].
    apply streq_eq in Hx. now rewrite Hx.
Qed.

(** With unique names, a lookup does not depend on the order of the list. *)
Lemma getFieldValue_perm (infra infra' : list InfraConfig) (k : jsstring) :
  NoDup (map e_name infra) -> Permutation infra infra' ->
  getFieldValue infra k = getFieldValue infra' k.
Proof.
  intros Hnd Hp.
  assert (Hnd' : NoDup (map e_name infra')).
  { apply (Permutation_NoDup (l := map e_name infra)); [|assumption].
    now apply Permutation_map. }
  destruct (in_dec (list_eq_dec N.eq_dec) k (map e_name infra)) as [Hin|Hout].
  - apply getFieldValue_present in Hin.
    assert (Hin' := Permutation_in _ Hp Hin).
    apply (getFieldValue_unique _ _ Hnd') in Hin'. simpl in Hin'. now rewrite Hin'.
  - rewrite (getFieldValue_absent infra k Hout). symmetry.
    apply getFieldValue_absent. intros Hin. apply Hout.
    apply (Permutation_in (l := map e_name infra')); [|assumption].
    apply Permutation_map. now apply Permutation_sym.
Qed.

Lemma existsb_perm {A : Type} (q : A -> bool) (l l' : list A) :
  Permutation l l' -> existsb q l = existsb q l'.
Proof.
  intros Hp. apply eq_true_iff_eq. rewrite !existsb_exists.
  split; intros (x & Hx & Hq); exists x; split; try assumption.
  - now apply (Permutation_in _ Hp).
  - now apply (Permutation_in _ (Permutation_sym Hp)).
Qed.

(** X4.  The built [Config] does not depend on the order of the two
    fetched lists: when the names of the infra-config list are unique,
    any reordering of it, and any provider list with the same members,
    builds the same [Config]. *)
Theorem buildConfig_order_irrelevant (infra infra' : list InfraConfig)
    (provs provs' : list jsstring) :
  NoDup (map e_name infra) ->
  Permutation infra infra' ->
  (forall p, In p provs <-> In p provs') ->
  buildConfig infra provs = buildConfig infra' provs'.
Proof.
  intros Hnd Hp Hprovs. apply buildConfig_ext.
  - intros f. now apply getFieldValue_perm.
  - simpl. rewrite !find_is_existsb. now apply existsb_perm.
  - intros p. apply eq_true_iff_eq. rewrite !includes_In. apply Hprovs.
Qed.

Lemma buildConfig_order_irrelevant_witness :
  buildConfig sampleInfra [ js "GOOGLE"; js "EMAIL" ]
  = buildConfig (rev sampleInfra) [ js "EMAIL"; js "GOOGLE"; js "EMAIL" ].
Proof.
  apply buildConfig_order_irrelevant.
  - simpl. repeat constructor; simpl; intuition discriminate.
  - apply Permutation_rev.
  - intros p. simpl. tauto.
Defined.

(** X5.  Mounting, from any state of the instance: the infra-config read
    runs first and the provider read second, on the world the first one
    left; both refs then hold the [Config] built from the two answers
    (the working copy equal to the current one), and no toast is added. *)
Theorem onMounted_run (World : Type)
    (fetchInfraConfigs : World -> list InfraConfig * World)
    (fetchAllowedAuthProviders : World -> list jsstring * World)
    (s : Handler World) :
  runState (onMounted fetchInfraConfigs fetchAllowedAuthProviders) s
  = (tt,
     {| currentConfigs :=
          Some (buildConfig (fst (fetchInfraConfigs (world s)))
                  (fst (fetchAllowedAuthProviders (snd (fetchInfraConfigs (world s))))));
        workingConfigs :=
          Some (buildConfig (fst (fetchInfraConfigs (world s)))
                  (fst (fetchAllowedAuthProviders (snd (fetchInfraConfigs (world s))))));
        toasts := toasts s;
        world := snd (fetchAllowedAuthProviders (snd (fetchInfraConfigs (world s)))) |}).
Proof.
  unfold onMounted, external. simpl.
  destruct (fetchInfraConfigs (world s)) as [infra w1]. simpl.
  destruct (fetchAllowedAuthProviders w1) as [provs w2]. reflexivity.
Qed.

(* ===================================================================== *)
(** ** More on the infra-config reverse transform *)
(* ===================================================================== *)

Lemma sectionFields_sectionOf (f : FieldId) (s : SectionId) :
  In f (sectionFields s) <-> s = sectionOf f.
Proof.
  split.
  - intros H. apply (sectionFields_disjoint f); [assumption|].
    destruct f; simpl; tauto.
  - intros ->. destruct f; simpl; tauto.
Qed.

Lemma In_enabledFields_sectionOf (c : Config) (f : FieldId) :
  In f (enabledFields c) <-> sectionEnabled c (sectionOf f) = true.
Proof.
  rewrite In_enabledFields. split.
  - intros (s & Hon & Hf). apply sectionFields_sectionOf in Hf. now subst.
  - intros Hon. exists (sectionOf f). split; [assumption|].
    now apply sectionFields_sectionOf.
Qed.

(** Different fields travel under different keys. *)
Lemma fieldKey_inj (f f' : FieldId) : fieldKey f = fieldKey f' -> f = f'.
Proof.
  intros H.
  assert (Hin : In (fieldKey f) (sectionKeys (sectionOf f'))).
  { rewrite H. apply in_map. now apply sectionFields_sectionOf. }
  apply fieldKey_section in Hin.
  destruct f'; simpl in Hin;
    repeat (destruct Hin as [Hin|Hin]; [subst f; try reflexivity; discriminate H|]);
    destruct Hin.
Qed.

Lemma NoDup_allFields : NoDup allFields.
Proof.
  unfold allFields. simpl.
  repeat (constructor; [simpl; intuition discriminate|]). constructor.
Qed.

(** The fields of the sections that are on, as a selection among all. *)
Lemma enabledFields_filter (c : Config) :
  enabledFields c = filter (fun f => sectionEnabled c (sectionOf f)) allFields.
Proof.
  destruct c as [[[gn ge gf] [hn he hf] [mn me mf] [on oe ob]] [ln le lf] ds].
  destruct ge, me, he, oe, le; reflexivity.
Qed.

Lemma NoDup_enabledFields (c : Config) : NoDup (enabledFields c).
Proof. rewrite enabledFields_filter. apply NoDup_filter, NoDup_allFields. Qed.

Lemma updatedInfraConfigs_names (c : Config) :
  map e_name (updatedInfraConfigs (Some c)) = map fieldKey (enabledFields c).
Proof. rewrite updatedInfraConfigs_Some, map_map. reflexivity. Qed.

Lemma NoDup_payload_names (c : Config) :
  NoDup (map e_name (updatedInfraConfigs (Some c))).
Proof.
  rewrite updatedInfraConfigs_names.
  generalize (NoDup_enabledFields c).
  induction (enabledFields c) as [|f l IH]; intros Hnd; simpl; [constructor|].
  inversion Hnd as [|? ? Hf Hl]; subst. constructor; [|now apply IH].
  intros Hin. apply in_map_iff in Hin as (f' & Hk & Hf').
  apply fieldKey_inj in Hk. now subst.
Qed.

(** X6.  No name occurs twice in the payload, whether the optional
    argument is given or not. *)
Theorem updatedInfraConfigs_NoDup (updatedConfigs : option Config) :
  NoDup (map e_name (updatedInfraConfigs updatedConfigs)).
Proof.
  destruct updatedConfigs as [c|]; [apply NoDup_payload_names | constructor].
Qed.

(** X7.  The key of a field is a name of the payload exactly when the
    section of the field is switched on, and then the payload carries the
    key with the value of the field, blank or not. *)
Theorem updatedInfraConfigs_key_iff (c : Config) (f : FieldId) :
  (In (fieldKey f) (map e_name (updatedInfraConfigs (Some c)))
   <-> sectionEnabled c (sectionOf f) = true)
  /\ (forall v, In {| e_name := fieldKey f; value := v |} (updatedInfraConfigs (Some c))
                <-> sectionEnabled c (sectionOf f) = true /\ v = getField c f).
Proof.
  split.
  - rewrite updatedInfraConfigs_names, <- In_enabledFields_sectionOf, in_map_iff.
    split.
    + intros (f' & Hk & Hf'). apply fieldKey_inj in Hk. now subst.
    + intros Hf. now exists f.
  - intros v. rewrite updatedInfraConfigs_Some, <- In_enabledFields_sectionOf, in_map_iff.
    split.
    + intros (f' & He & Hf'). injection He as Hk Hv.
      apply fieldKey_inj in Hk. subst. auto.
    + intros [Hf ->]. now exists f.
Qed.

(** X8.  The payload looks at the five flags and at the fields of the
    sections that are on, and at nothing else: two [Config]s that agree
    there give the same payload. *)
Theorem updatedInfraConfigs_ext (c c' : Config) :
  (forall s, sectionEnabled c s = sectionEnabled c' s) ->
  (forall f, sectionEnabled c (sectionOf f) = true -> getField c f = getField c' f) ->
  updatedInfraConfigs (Some c) = updatedInfraConfigs (Some c').
Proof.
  intros Hon Hf. rewrite !updatedInfraConfigs_Some.
  replace (enabledFields c') with (enabledFields c).
  - apply map_ext_in. intros f Hin. unfold entryOf.
    apply In_enabledFields_sectionOf in Hin. now rewrite (Hf f Hin).
  - unfold enabledFields. apply flat_map_ext. intros s. now rewrite Hon.
Qed.

Lemma updatedInfraConfigs_ext_witness :
  updatedInfraConfigs (Some sampleConfig) = updatedInfraConfigs (Some sampleConfigEdited).
Proof.
  apply updatedInfraConfigs_ext.
  - intros s. destruct s; reflexivity.
  - intros f. destruct f; simpl; intros H; try discriminate H; reflexivity.
Defined.

(** X9.  Reading a payload back: the builder run on the payload of a
    [Config] (as if the server answered with what was sent) gives each
    field of a switched-on section its value again, and the empty string
    to each field of a switched-off section. *)
Theorem buildConfig_of_payload (c : Config) (provs : list jsstring) (f : FieldId) :
  getField (buildConfig (updatedInfraConfigs (Some c)) provs) f
  = if sectionEnabled c (sectionOf f) then getField c f else js_empty.
Proof.
  rewrite getField_buildConfig.
  destruct (sectionEnabled c (sectionOf f)) eqn:Hon.
  - apply In_enabledFields_sectionOf in Hon.
    apply (getFieldValue_unique _ (entryOf c f) (NoDup_payload_names c)).
    rewrite updatedInfraConfigs_Some. now apply in_map.
  - apply getFieldValue_absent.
    rewrite updatedInfraConfigs_names, in_map_iff.
    intros (f' & Hk & Hf'). apply fieldKey_inj in Hk. subst f'.
    apply In_enabledFields_sectionOf in Hf'. congruence.
Qed.

(** The payload after a build, with every section switched on. *)
Lemma payload_of_build (infra : list InfraConfig) (provs : list jsstring) :
  updatedInfraConfigs (Some (enableAll (buildConfig infra provs)))
  = map (fun k => {| e_name := k; value := getFieldValue infra k |}) relevantKeys.
Proof.
  rewrite updatedInfraConfigs_Some. unfold relevantKeys. rewrite map_map.
  change (enabledFields (enableAll (buildConfig infra provs))) with allFields.
  apply map_ext. intros f. unfold entryOf.
  now rewrite getField_enableAll, getField_buildConfig.
Qed.

(** The query asks for the 23 payload keys, in the order of the payload,
    and for the analytics flag last; it asks for no name twice. *)
Lemma configNames_relevantKeys :
  configNames = relevantKeys ++ [ js "ALLOW_ANALYTICS_COLLECTION" ].
Proof. reflexivity. Qed.

Lemma NoDup_configNames : NoDup configNames.
Proof.
  rewrite configNames_relevantKeys. apply NoDup_app.
  - unfold relevantKeys. generalize NoDup_allFields.
    induction allFields as [|f l IH]; intros Hnd; simpl; [constructor|].
    inversion Hnd as [|? ? Hf Hl]; subst. constructor; [|now apply IH].
    intros Hin. apply in_map_iff in Hin as (f' & Hk & Hf').
    apply fieldKey_inj in Hk. now subst.
  - repeat constructor. intros [].
  - intros k Hk [Ha|[]]. subst k.
    apply in_map_iff in Hk as (f & Hk & _). destruct f; discriminate Hk.
Qed.

(** X10.  A complete answer survives the round trip: when the fetched
    list has exactly the requested names in the requested order, building
    a [Config] from it, switching every section on and transforming back
    gives the fetched list without its last entry, the analytics flag. *)
Theorem roundtrip_complete_response (infra : list InfraConfig) (provs : list jsstring) :
  map e_name infra = configNames ->
  infra
  = updatedInfraConfigs (Some (enableAll (buildConfig infra provs)))
    ++ [ {| e_name := js "ALLOW_ANALYTICS_COLLECTION";
            value := getFieldValue infra (js "ALLOW_ANALYTICS_COLLECTION") |} ].
Proof.
  intros Hnames.
  assert (Hnd : NoDup (map e_name infra)) by (rewrite Hnames; apply NoDup_configNames).
  rewrite payload_of_build.
  change [ {| e_name := js "ALLOW_ANALYTICS_COLLECTION";
              value := getFieldValue infra (js "ALLOW_ANALYTICS_COLLECTION") |} ]
    with (map (fun k => {| e_name := k; value := getFieldValue infra k |})
              [ js "ALLOW_ANALYTICS_COLLECTION" ]).
  rewrite <- map_app, <- configNames_relevantKeys, <- Hnames, map_map.
  rewrite <- (map_id infra) at 1.
  apply map_ext_in. intros e He.
  rewrite (getFieldValue_unique infra e Hnd He). now destruct e.
Qed.

Lemma roundtrip_complete_response_witness :
  fullInfra
  = updatedInfraConfigs (Some (enableAll (buildConfig fullInfra [ js "GITHUB" ])))
    ++ [ {| e_name := js "ALLOW_ANALYTICS_COLLECTION";
            value := getFieldValue fullInfra (js "ALLOW_ANALYTICS_COLLECTION") |} ].
Proof.
  apply (roundtrip_complete_response fullInfra [ js "GITHUB" ]).
  reflexivity.
Defined.

(** X11.  The payload is the empty list exactly when all five sections
    are switched off. *)
Theorem updatedInfraConfigs_nil_iff (c : Config) :
  updatedInfraConfigs (Some c) = [] <-> forall s, sectionEnabled c s = false.
Proof.
  rewrite updatedInfraConfigs_Some. split.
  - intros Hnil s. destruct (sectionEnabled c s) eqn:Hon; [|reflexivity].
    assert (Hf : exists f, In f (sectionFields s))
      by (destruct s; eexists; simpl; left; reflexivity).
    destruct Hf as (f & Hf).
    assert (Hin : In (entryOf c f) (map (entryOf c) (enabledFields c))).
    { apply in_map, In_enabledFields. now exists s. }
    rewrite Hnil in Hin. destruct Hin.
  - intros Hoff. destruct (enabledFields c) as [|f l] eqn:E; [reflexivity|].
    assert (Hin : In f (enabledFields c)) by (rewrite E; now left).
    apply In_enabledFields_sectionOf in Hin. rewrite Hoff in Hin. discriminate.
Qed.

(* ===================================================================== *)
(** ** More on the auth-provider reverse transform *)
(* ===================================================================== *)

(** X12.  Provider round trip: in the directives of a freshly built
    [Config], a provider has status ['ENABLE'] exactly when the fetched
    provider list holds it, and ['DISABLE'] exactly when it does not. *)
Theorem directives_of_build (infra : list InfraConfig) (provs : list jsstring)
    (d : EnableAndDisableSsoArgs) :
  In d (updatedAllowedAuthProviders (Some (buildConfig infra provs))) ->
  (status d = js "ENABLE" <-> In (provider d) provs)
  /\ (status d = js "DISABLE" <-> ~ In (provider d) provs).
Proof.
  intros Hd. simpl in Hd. unfold statusOf in Hd. simpl in Hd.
  destruct Hd as [<-|[<-|[<-|[<-|[]]]]]; simpl; rewrite <- includes_In;
    match goal with
    | |- context [includes provs ?p] => destruct (includes provs p)
    end; simpl; (split; split; intros H; try reflexivity; try discriminate H;
                 try (intros H'; discriminate H'); exfalso; apply H; reflexivity).
Qed.

Lemma directives_of_build_witness :
  In {| provider := js "GITHUB"; status := js "DISABLE" |}
     (updatedAllowedAuthProviders (Some (buildConfig sampleInfra [ js "GOOGLE" ])))
  /\ ~ In (js "GITHUB") [ js "GOOGLE" ].
Proof.
  assert (Hd : In {| provider := js "GITHUB"; status := js "DISABLE" |}
                  (updatedAllowedAuthProviders (Some (buildConfig sampleInfra [ js "GOOGLE" ]))))
    by (vm_compute; tauto).
  split; [exact Hd|].
  exact (proj1 (proj2 (directives_of_build sampleInfra [ js "GOOGLE" ] _ Hd)) eq_refl).
Defined.

(** X13.  The directives look at four flags only: two [Config]s that
    agree on the flags of google, microsoft, github and mail give the
    same directives, whatever their oidc section, their data-sharing flag
    and their fields; and no directive is for OIDC. *)
Theorem directives_ext (c c' : Config) :
  (forall s, s <> s_oidc -> sectionEnabled c s = sectionEnabled c' s) ->
  updatedAllowedAuthProviders (Some c) = updatedAllowedAuthProviders (Some c')
  /\ ~ In (js "OIDC") (map provider (updatedAllowedAuthProviders (Some c))).
Proof.
  intros H. split.
  - unfold updatedAllowedAuthProviders. simpl.
    assert (Hg := H s_google). assert (Hm := H s_microsoft).
    assert (Hh := H s_github). assert (Hl := H s_mail). simpl in *.
    rewrite Hg, Hm, Hh, Hl by discriminate. reflexivity.
  - simpl. intuition discriminate.
Qed.

Lemma directives_ext_witness :
  updatedAllowedAuthProviders (Some sampleConfig)
  = updatedAllowedAuthProviders (Some (setEnabled s_oidc true sampleConfigEdited))
  /\ ~ In (js "OIDC") (map provider (updatedAllowedAuthProviders (Some sampleConfig))).
Proof.
  apply directives_ext.
  intros s Hs. destruct s; try reflexivity. now elim Hs.
Defined.

(* ===================================================================== *)
(** ** More on the validator *)
(* ===================================================================== *)

(** X14.  A field counts as empty exactly when every one of its code
    units is white space (the empty string included). *)
Theorem isFieldEmpty_all_white (field : jsstring) :
  isFieldEmpty field = forallb isWhiteSpace field.
Proof.
  apply eq_true_iff_eq. unfold isFieldEmpty.
  rewrite streq_eq. apply trim_nil_iff.
Qed.

Lemma validated_not_empty (c : Config) (s : SectionId) (f : FieldId) :
  AreAnyConfigFieldsEmpty c = false ->
  In s validatedSections -> sectionEnabled c s = true -> In f (sectionFields s) ->
  isFieldEmpty (getField c f) = false.
Proof.
  intros Hv Hs Hon Hf. rewrite AreAnyConfigFieldsEmpty_unfold in Hv.
  destruct (isFieldEmpty (getField c f)) eqn:E; [|reflexivity].
  assert (Ht : existsb (fun s => sectionEnabled c s
                 && existsb (fun f => isFieldEmpty (getField c f)) (sectionFields s))
                 validatedSections = true).
  { apply existsb_exists. exists s. split; [assumption|]. rewrite Hon. simpl.
    apply existsb_exists. now exists f. }
  congruence.
Qed.

(** X15.  What a validated [Config] sends: when the validator answers
    [false], every entry of the payload under a key of google, microsoft,
    github or mail has a value that does not trim to the empty string.
    Only the keys of oidc can carry a blank value past the validator. *)
Theorem validated_payload_not_blank (c : Config) (e : UpdatedConfigs) :
  AreAnyConfigFieldsEmpty c = false ->
  In e (updatedInfraConfigs (Some c)) ->
  ~ In (e_name e) (sectionKeys s_oidc) ->
  trim (value e) <> js_empty.
Proof.
  intros Hv He Hoidc. rewrite updatedInfraConfigs_Some in He.
  apply in_map_iff in He as (f & <- & Hf).
  change (e_name (entryOf c f)) with (fieldKey f) in Hoidc.
  change (value (entryOf c f)) with (getField c f).
  apply In_enabledFields in Hf as (s & Hon & Hf).
  assert (Hs : In s validatedSections).
  { destruct s; simpl; try tauto. exfalso. apply Hoidc.
    unfold sectionKeys. now apply in_map. }
  assert (Hne := validated_not_empty c s f Hv Hs Hon Hf).
  unfold isFieldEmpty in Hne. now apply streq_neq in Hne.
Qed.

Lemma validated_payload_not_blank_witness :
  AreAnyConfigFieldsEmpty validConfig = false
  /\ In {| e_name := js "GOOGLE_SCOPE"; value := js "p" |}
        (updatedInfraConfigs (Some validConfig))
  /\ In {| e_name := js "OIDC_ISSUER"; value := js_empty |}
        (updatedInfraConfigs (Some validConfig))
  /\ trim (js "p") <> js_empty.
Proof.
  assert (Hv : AreAnyConfigFieldsEmpty validConfig = false) by reflexivity.
  assert (He : In {| e_name := js "GOOGLE_SCOPE"; value := js "p" |}
                  (updatedInfraConfigs (Some validConfig))) by (vm_compute; tauto).
  assert (Ho : In {| e_name := js "OIDC_ISSUER"; value := js_empty |}
                  (updatedInfraConfigs (Some validConfig))) by (vm_compute; tauto).
  assert (Hk : ~ In (js "GOOGLE_SCOPE") (sectionKeys s_oidc))
    by (simpl; intuition discriminate).
  repeat split; try assumption.
  exact (validated_payload_not_blank validConfig _ Hv He Hk).
Defined.

(** X16.  A partial answer is caught: when the provider of github,
    google, microsoft or mail is allowed and the fetched list lacks one of
    the keys of that section, the validator answers [true] on the built
    [Config]. *)
Theorem validator_catches_missing_key (infra : list InfraConfig) (provs : list jsstring)
    (s : SectionId) (f : FieldId) :
  In s validatedSections ->
  In (providerOf s) provs ->
  In f (sectionFields s) ->
  ~ In (fieldKey f) (map e_name infra) ->
  AreAnyConfigFieldsEmpty (buildConfig infra provs) = true.
Proof.
  intros Hs Hp Hf Habs. rewrite AreAnyConfigFieldsEmpty_unfold.
  apply existsb_exists. exists s. split; [assumption|].
  apply andb_true_iff. split.
  - destruct s; simpl; now apply includes_In.
  - apply existsb_exists. exists f. split; [assumption|].
    rewrite getField_buildConfig, (getFieldValue_absent infra _ Habs). reflexivity.
Qed.

Lemma validator_catches_missing_key_witness :
  AreAnyConfigFieldsEmpty (buildConfig sampleInfra [ js "GOOGLE" ]) = true.
Proof.
  apply (validator_catches_missing_key sampleInfra [ js "GOOGLE" ] s_google google_scope).
  - simpl. tauto.
  - simpl. tauto.
  - simpl. tauto.
  - simpl. intuition discriminate.
Defined.

(* ===================================================================== *)
(** ** More on the four operations *)
(* ===================================================================== *)

Section Operations.

Variables World CombinedError : Type.
Variable t : jsstring -> jsstring.
Variable updatedConfigs : option Config.

Implicit Types (mutation : Urql.UseMutationResponse World CombinedError)
               (s : Handler World).

Lemma dispatch_variablesOf (site : CallSite) mutation :
  dispatch t updatedConfigs site mutation
  = executeMutation t mutation (variablesOf updatedConfigs site) (failureKey site).
Proof. destruct site; reflexivity. Qed.

(** X17.  What an operation sends: it runs its mutation once, on the
    world as it is, with the directives (provider update), the payload
    (infra-config update), no variables (reset) or the status of the
    data-sharing flag (toggle), each computed from the argument of the
    composable; it answers [true] exactly when the result has no error. *)
Theorem dispatch_sends (site : CallSite) mutation s :
  world (execState (dispatch t updatedConfigs site mutation) s)
  = snd (Urql.executeMutation mutation (variablesOf updatedConfigs site) (world s))
  /\ (evalState (dispatch t updatedConfigs site mutation) s = true
      <-> Urql.error (fst (Urql.executeMutation mutation
                             (variablesOf updatedConfigs site) (world s))) = None).
Proof.
  rewrite dispatch_variablesOf. unfold execState, evalState.
  rewrite executeMutation_run.
  destruct (Urql.executeMutation mutation (variablesOf updatedConfigs site) (world s))
    as [[[e|]] w]; simpl; split; try reflexivity; split; try reflexivity; discriminate.
Qed.

(** X18.  The operations read neither ref: with any other contents in
    [currentConfigs] and [workingConfigs] an operation gives the same
    answer, the same toasts and the same world, and hands the other
    contents back untouched.  What is sent comes from the argument of the
    composable, not from the working copy of the instance. *)
Theorem dispatch_ignores_refs (site : CallSite) mutation s
    (current working : option Config) :
  runState (dispatch t updatedConfigs site mutation) (withRefs current working s)
  = (evalState (dispatch t updatedConfigs site mutation) s,
     withRefs current working (execState (dispatch t updatedConfigs site mutation) s)).
Proof.
  rewrite dispatch_variablesOf. unfold execState, evalState.
  rewrite !executeMutation_run. simpl.
  destruct (Urql.executeMutation mutation (variablesOf updatedConfigs site) (world s))
    as [[[e|]] w]; reflexivity.
Qed.

(** X19.  From the fetched list to the toggle: run on a freshly built
    [Config], the data-sharing toggle sends ['ENABLE'] when the list has
    an entry [ALLOW_ANALYTICS_COLLECTION] of value ['true'], and
    ['DISABLE'] when it has none. *)
Theorem toggle_of_build (infra : list InfraConfig) (provs : list jsstring) mutation s :
  world (execState (updateDataSharingConfigs t (Some (buildConfig infra provs)) mutation) s)
  = snd (Urql.executeMutation mutation
           (vars_status
              (if existsb (fun x => streq (e_name x) (js "ALLOW_ANALYTICS_COLLECTION")
                                    && streq (value x) (js "true")) infra
               then js "ENABLE" else js "DISABLE"))
           (world s)).
Proof.
  unfold updateDataSharingConfigs, execState. rewrite executeMutation_run.
  unfold statusOf. simpl. rewrite find_is_existsb.
  match goal with
  | |- context [Urql.executeMutation mutation ?v (world s)] =>
      destruct (Urql.executeMutation mutation v (world s)) as [[[e|]] w]
  end; reflexivity.
Qed.

End Operations.

(** A run of the four operations on the sample, against a mutation that
    records its variables and succeeds. *)
Example dispatch_sends_sample :
  map (fun site => world (execState (dispatch (fun key => key) (Some sampleConfig) site
                                              succeedingMutation) sampleHandler))
      [ call_updateAuthProvider; call_updateInfraConfigs;
        call_resetInfraConfigs; call_updateDataSharingConfigs ]
  = [ [ vars_providerInfo (updatedAllowedAuthProviders (Some sampleConfig)) ];
      [ vars_infraConfigs (updatedInfraConfigs (Some sampleConfig)) ];
      [ vars_undefined ];
      [ vars_status (js "ENABLE") ] ].
Proof. reflexivity. Qed.
